(** * RealSync CRM: record locks, presence and the version guard

    A shallow embedding of the concurrency migration
    (record_locks / user_presence tables, the plpgsql functions
    acquire_lock, release_lock, check_lock, cleanup_expired_locks,
    get_viewers, increment_version), of the UPDATE statement on a
    versioned table under its row level security policies, triggers
    and constraints, of the TypeScript service
    functions acquireLock / updateWithVersionCheck, of the React Query
    mutation useUpdateCompany and of the useRecordLock / useEditMode
    hooks, together with the properties stated about them. *)

From Stdlib Require Import ZArith NArith List String DecimalString Bool Lia.
Import ListNotations.

Local Open Scope Z_scope.

(** ** SQL value domains *)

(** UUID values are 128-bit numbers; TEXT is a string; TIMESTAMPTZ is a
    count of microseconds, the resolution PostgreSQL stores. *)
Definition uuid : Type := N.
Definition text : Type := string.
Definition timestamptz : Type := Z.

(** [(n || ' minutes')::interval] as a number of microseconds. *)
Definition minutes (n : Z) : Z := n * 60000000.
Arguments minutes : simpl never.

(** The largest value of the INTEGER (int4) type. *)
Definition int4_max : Z := 2147483647.

(** Errors a statement can raise.  A raised error aborts the function
    call and rolls its transaction back. *)
Inductive sql_error : Type :=
| not_null_violation
| unique_violation
| numeric_value_out_of_range
| insufficient_privilege
| foreign_key_violation
| check_violation.

Inductive outcome (A : Type) : Type :=
| Returned (a : A)
| Raised (e : sql_error).
Arguments Returned {A} a.
Arguments Raised {A} e.

(** Three-valued comparison: [x = y] is NULL as soon as one side is. *)
Definition sql_eq {A : Type} (eqb : A -> A -> bool) (x y : option A) : option bool :=
  match x, y with
  | Some a, Some b => Some (eqb a b)
  | _, _ => None
  end.

Definition sql_neq {A : Type} (eqb : A -> A -> bool) (x y : option A) : option bool :=
  option_map negb (sql_eq eqb x y).

Definition sql_and (x y : option bool) : option bool :=
  match x, y with
  | Some false, _ | _, Some false => Some false
  | Some true, Some true => Some true
  | _, _ => None
  end.

(** A WHERE clause keeps a row only when its condition is TRUE. *)
Definition is_true (x : option bool) : bool :=
  match x with Some true => true | _ => false end.

(** ** The lock store *)

Module LockStore.

(** One row of [profiles]; only the columns the lock functions read. *)
Record profile : Type := mkProfile {
  profile_id : uuid;
  full_name : text
}.

(** One row of [record_locks].  [locked_at] has a default but no
    NOT NULL constraint, every other column is NOT NULL. *)
Record record_lock : Type := mkLock {
  id : uuid;
  entity_type : text;
  entity_id : uuid;
  locked_by : uuid;
  locked_by_name : text;
  locked_at : option timestamptz;
  expires_at : timestamptz
}.

Record db : Type := mkDb {
  profiles : list profile;
  record_locks : list record_lock
}.

Definition set_locks (d : db) (rows : list record_lock) : db :=
  mkDb (profiles d) rows.

(** [WHERE entity_type = p_entity_type AND entity_id = p_entity_id] *)
Definition same_entity (et : text) (eid : uuid) (r : record_lock) : bool :=
  String.eqb (entity_type r) et && N.eqb (entity_id r) eid.

(** [SELECT full_name INTO v_user_name FROM profiles WHERE id = v_user_id];
    the variable stays NULL when no row is found. *)
Definition select_full_name (u : uuid) (ps : list profile) : option text :=
  option_map full_name (find (fun p => N.eqb (profile_id p) u) ps).

(** [SELECT * INTO v_existing_lock FROM record_locks WHERE ...];
    FOUND is the result being [Some _]. *)
Definition select_lock (et : text) (eid : uuid) (rows : list record_lock)
  : option record_lock :=
  find (same_entity et eid) rows.

(** [uuid_generate_v4()], the default of the [id] column: modelled as an
    allocator that returns an identifier not yet used in the table. *)
Definition uuid_generate (rows : list record_lock) : uuid :=
  N.succ (fold_right N.max 0%N (map id rows)).

(** [UPDATE record_locks SET expires_at = .., locked_at = NOW() WHERE id = ..] *)
Definition update_extend (lock_id : uuid) (now expires : timestamptz)
  (rows : list record_lock) : list record_lock :=
  map (fun r =>
         if N.eqb (id r) lock_id
         then mkLock (id r) (entity_type r) (entity_id r)
                     (locked_by r) (locked_by_name r) (Some now) expires
         else r) rows.

(** [UPDATE record_locks SET locked_by = .., locked_by_name = ..,
     locked_at = NOW(), expires_at = .. WHERE id = ..] *)
Definition update_takeover (lock_id : uuid) (u : uuid) (name : text)
  (now expires : timestamptz) (rows : list record_lock) : list record_lock :=
  map (fun r =>
         if N.eqb (id r) lock_id
         then mkLock (id r) (entity_type r) (entity_id r)
                     u name (Some now) expires
         else r) rows.

(** [INSERT INTO record_locks (...) VALUES (...) RETURNING id], checked
    against [UNIQUE(entity_type, entity_id)]; [locked_at] takes its
    default NOW(). *)
Definition insert_lock (et : text) (eid : uuid) (u : uuid) (name : text)
  (now expires : timestamptz) (rows : list record_lock)
  : outcome (uuid * list record_lock) :=
  if existsb (same_entity et eid) rows then Raised unique_violation
  else
    let new_id := uuid_generate rows in
    Returned (new_id, rows ++ [mkLock new_id et eid u name (Some now) expires]).

(** The JSONB objects [acquire_lock] builds. *)
Inductive acquire_json : Type :=
| NotAuthenticated
| Extended (lock_id : uuid) (expires : timestamptz)
| TookOver (lock_id : uuid) (expires : timestamptz)
| Denied (by_id : uuid) (by_name : text)
         (at_time : option timestamptz) (expires : timestamptz)
| Created (lock_id : uuid) (expires : timestamptz).

(** The ['success'] member of the object. *)
Definition success (j : acquire_json) : bool :=
  match j with
  | Extended _ _ | TookOver _ _ | Created _ _ => true
  | NotAuthenticated | Denied _ _ _ _ => false
  end.

(** The local variables of [acquire_lock] once its two SELECTs ran. *)
Record acquire_locals : Type := mkLocals {
  v_user_id : uuid;
  v_user_name : option text;
  v_existing_lock : option record_lock
}.

(** Lines 84-89 of the migration: the two lookups. *)
Definition acquire_select (u : uuid) (et : text) (eid : uuid) (d : db)
  : acquire_locals :=
  mkLocals u (select_full_name u (profiles d)) (select_lock et eid (record_locks d)).

(** Lines 91-146: the IF FOUND ... END IF block, run against the table
    as it is when the write statement executes. *)
Definition acquire_branch (l : acquire_locals) (now : timestamptz)
  (et : text) (eid : uuid) (dur : Z) (d : db) : outcome acquire_json * db :=
  let v_expires_at := now + minutes dur in
  match v_existing_lock l with
  | Some ex =>
      if N.eqb (locked_by ex) (v_user_id l) then
        (Returned (Extended (id ex) v_expires_at),
         set_locks d (update_extend (id ex) now v_expires_at (record_locks d)))
      else if expires_at ex <? now then
        match v_user_name l with
        | Some name =>
            (Returned (TookOver (id ex) v_expires_at),
             set_locks d (update_takeover (id ex) (v_user_id l) name now
                                          v_expires_at (record_locks d)))
        | None =>
            if existsb (fun r => N.eqb (id r) (id ex)) (record_locks d)
            then (Raised not_null_violation, d)
            else (Returned (TookOver (id ex) v_expires_at), d)
        end
      else
        (Returned (Denied (locked_by ex) (locked_by_name ex)
                          (locked_at ex) (expires_at ex)), d)
  | None =>
      match v_user_name l with
      | Some name =>
          match insert_lock et eid (v_user_id l) name now v_expires_at
                            (record_locks d) with
          | Returned (new_id, rows) =>
              (Returned (Created new_id v_expires_at), set_locks d rows)
          | Raised e => (Raised e, d)
          end
      | None => (Raised not_null_violation, d)
      end
  end.

(** [acquire_lock(p_entity_type, p_entity_id, p_lock_duration_minutes)].
    [auth] is the value of [auth.uid()], [now] the value of [NOW()]. *)
Definition acquire_lock (auth : option uuid) (now : timestamptz)
  (et : text) (eid : uuid) (dur : Z) (d : db) : outcome acquire_json * db :=
  match auth with
  | None => (Returned NotAuthenticated, d)
  | Some u => acquire_branch (acquire_select u et eid d) now et eid dur d
  end.

(** [release_lock(p_entity_type, p_entity_id)]: the DELETE and FOUND. *)
Definition owned_by (et : text) (eid : uuid) (u : uuid) (r : record_lock) : bool :=
  same_entity et eid r && N.eqb (locked_by r) u.

Definition release_lock (auth : option uuid) (et : text) (eid : uuid) (d : db)
  : bool * db :=
  match auth with
  | None => (false, d)
  | Some u =>
      (existsb (owned_by et eid u) (record_locks d),
       set_locks d (filter (fun r => negb (owned_by et eid u r)) (record_locks d)))
  end.

(** The JSONB objects [check_lock] builds; [is_mine] is NULL when
    [auth.uid()] is. *)
Inductive check_json : Type :=
| NotLocked
| Locked (is_mine : option bool) (by_id : uuid) (by_name : text)
         (at_time : option timestamptz) (expires : timestamptz).

Definition live (now : timestamptz) (r : record_lock) : bool :=
  now <? expires_at r.

Definition check_lock (auth : option uuid) (now : timestamptz)
  (et : text) (eid : uuid) (d : db) : check_json :=
  match find (fun r => same_entity et eid r && live now r) (record_locks d) with
  | None => NotLocked
  | Some r =>
      Locked (sql_eq N.eqb (Some (locked_by r)) auth)
             (locked_by r) (locked_by_name r) (locked_at r) (expires_at r)
  end.

Definition is_mine_of (j : check_json) : option bool :=
  match j with
  | NotLocked => None
  | Locked m _ _ _ _ => m
  end.

(** [cleanup_expired_locks()]: the DELETE and its ROW_COUNT. *)
Definition expired (now : timestamptz) (r : record_lock) : bool :=
  expires_at r <? now.

Definition cleanup_expired_locks (now : timestamptz) (d : db) : Z * db :=
  (Z.of_nat (List.length (filter (expired now) (record_locks d))),
   set_locks d (filter (fun r => negb (expired now r)) (record_locks d))).

End LockStore.

(** ** The presence store *)

Module Presence.

(** One row of [user_presence], without its surrogate [id]; every
    column after [user_name] is nullable. *)
Record user_presence : Type := mkPresence {
  user_id : uuid;
  user_name : text;
  current_page : option text;
  entity_type : option text;
  entity_id : option uuid;
  status : option text;
  last_seen : option timestamptz
}.

(** One row of the table [get_viewers] returns. *)
Record viewer : Type := mkViewer {
  v_user_id : uuid;
  v_user_name : text;
  v_status : option text;
  v_last_seen : option timestamptz
}.

Definition viewer_of (r : user_presence) : viewer :=
  mkViewer (user_id r) (user_name r) (status r) (last_seen r).

Definition sql_gt (x y : option Z) : option bool :=
  match x, y with
  | Some a, Some b => Some (b <? a)
  | _, _ => None
  end.

(** The WHERE clause of [get_viewers], lines 275-278. *)
Definition viewing (auth : option uuid) (now : timestamptz)
  (et : text) (eid : uuid) (up : user_presence) : option bool :=
  sql_and
    (sql_and
       (sql_and (sql_eq String.eqb (entity_type up) (Some et))
                (sql_eq N.eqb (entity_id up) (Some eid)))
       (sql_gt (last_seen up) (Some (now - minutes 2))))
    (sql_neq N.eqb (Some (user_id up)) auth).

(** [get_viewers(p_entity_type, p_entity_id)] *)
Definition get_viewers (auth : option uuid) (now : timestamptz)
  (et : text) (eid : uuid) (rows : list user_presence) : list viewer :=
  map viewer_of (filter (fun up => is_true (viewing auth now et eid up)) rows).

End Presence.

(** ** The version guard *)

Module VersionGuard.

(** What supabase-js hands back in [error]. *)
Inductive postgrest_error : Type :=
| PGRST116
| PgError (e : sql_error).

(** A promise that resolved or rejected. *)
Inductive js_error : Type :=
| ModifiedByAnotherUser
| Rethrown (e : postgrest_error).

Inductive promise (A : Type) : Type :=
| Resolved (a : A)
| Rejected (e : js_error).
Arguments Resolved {A} a.
Arguments Rejected {A} e.

Definition resolved {A : Type} (p : promise A) : bool :=
  match p with Resolved _ => true | Rejected _ => false end.

(** [CREATE TYPE staff_role AS ENUM (...)] *)
Inductive staff_role : Type :=
| admin | management | scheduler | sales | onboarding | technician.

Section Entity.

(** The business columns of a versioned table (companies, branches,
    equipment, jobs, quotes, certificates) other than [id] and
    [version]. *)
Variable payload : Type.

(** [version INTEGER DEFAULT 1]: nullable, in the int4 range. *)
Record entity : Type := mkEntity {
  id : uuid;
  version : option Z;
  data : payload
}.

(** The SET list of an UPDATE built from a [Partial<T>] object: it may
    assign [version] itself and any of the business columns. *)
Record changes : Type := mkChanges {
  set_version : option (option Z);
  set_data : payload -> payload
}.

Definition apply_changes (c : changes) (OLD : entity) : entity :=
  mkEntity (id OLD)
           (match set_version c with Some v => v | None => version OLD end)
           (set_data c (data OLD)).

(** The BEFORE UPDATE trigger [increment_version]:
    [NEW.version := COALESCE(OLD.version, 0) + 1].  Integer addition
    raises "integer out of range" instead of wrapping. *)
Definition increment_version (OLD NEW : entity) : outcome entity :=
  let v := match version OLD with Some v => v | None => 0 end + 1 in
  if v <=? int4_max then Returned (mkEntity (id NEW) (Some v) (data NEW))
  else Raised numeric_value_out_of_range.

(** What the table brings to an UPDATE besides the statement itself,
    for the caller of the request:
    - [can_select], [can_update]: the USING expressions of the table's
      SELECT and UPDATE policies on an existing row (row level security
      is enabled on every versioned table); a row that fails one of
      them is skipped silently;
    - [new_row_allowed]: the checks of the policies on the new row: the
      WITH CHECK expression of the UPDATE policy (its USING expression
      when it has none) and, the statement having a WHERE clause and
      RETURNING, the SELECT policies; a failure raises;
    - [set_updated_at]: the BEFORE UPDATE trigger [update_updated_at],
      [NEW.updated_at = NOW()];
    - [violated]: the NOT NULL, UNIQUE, CHECK and FOREIGN KEY
      constraints of the table, for the new row against the table. *)
Record rules : Type := mkRules {
  can_select : entity -> bool;
  can_update : entity -> bool;
  new_row_allowed : entity -> bool;
  set_updated_at : payload -> payload;
  violated : list entity -> entity -> option sql_error
}.

(** The trigger [update_updated_at] on a row. *)
Definition update_updated_at (R : rules) (NEW : entity) : entity :=
  mkEntity (id NEW) (version NEW) (set_updated_at R (data NEW)).

(** One row of the UPDATE once it was selected: the two BEFORE UPDATE
    triggers (they fire in name order, [increment_..._version] first),
    then the policy check and the constraints on the new row. *)
Definition new_row (R : rules) (table : list entity) (c : changes) (OLD : entity)
  : outcome entity :=
  match increment_version OLD (apply_changes c OLD) with
  | Raised e => Raised e
  | Returned NEW0 =>
      let NEW := update_updated_at R NEW0 in
      if new_row_allowed R NEW then
        match violated R table NEW with
        | Some e => Raised e
        | None => Returned NEW
        end
      else Raised insufficient_privilege
  end.

(** The rows an UPDATE with WHERE clause [cond] works on. *)
Definition selected (R : rules) (cond : entity -> bool) (OLD : entity) : bool :=
  cond OLD && can_select R OLD && can_update R OLD.

Fixpoint update_rows (R : rules) (table : list entity) (cond : entity -> bool)
  (c : changes) (rows : list entity) : outcome (list entity * list entity) :=
  match rows with
  | [] => Returned ([], [])
  | OLD :: rest =>
      match update_rows R table cond c rest with
      | Raised e => Raised e
      | Returned (rest', returning) =>
          if selected R cond OLD then
            match new_row R table c OLD with
            | Raised e => Raised e
            | Returned NEW => Returned (NEW :: rest', NEW :: returning)
            end
          else Returned (OLD :: rest', returning)
      end
  end.

(** [UPDATE t SET ... WHERE cond RETURNING *] under the table's
    policies, triggers and constraints: the new table and the returned
    rows, or the error that aborted the statement. *)
Definition sql_update (R : rules) (cond : entity -> bool) (c : changes)
  (rows : list entity) : outcome (list entity * list entity) :=
  update_rows R rows cond c rows.

(** [.select().single()]: exactly one returned row is the data; any
    other count is error PGRST116 and the request's transaction is
    rolled back. *)
Definition single (old_rows : list entity)
  (r : outcome (list entity * list entity))
  : (entity + postgrest_error) * list entity :=
  match r with
  | Raised e => (inr (PgError e), old_rows)
  | Returned (rows', [row]) => (inl row, rows')
  | Returned (_, _) => (inr PGRST116, old_rows)
  end.

(** [WHERE id = entityId AND version = expectedVersion] *)
Definition id_and_version (entityId : uuid) (expectedVersion : Z) (r : entity) : bool :=
  N.eqb (id r) entityId
  && is_true (sql_eq Z.eqb (version r) (Some expectedVersion)).

(** [updateWithVersionCheck(table, entityId, updates, expectedVersion)]
    with the Supabase client configured; the table is threaded through. *)
Definition updateWithVersionCheck (R : rules) (entityId : uuid) (updates : changes)
  (expectedVersion : Z) (rows : list entity) : promise entity * list entity :=
  match single rows
          (sql_update R (id_and_version entityId expectedVersion) updates rows) with
  | (inr PGRST116, rows') => (Rejected ModifiedByAnotherUser, rows')
  | (inr e, rows') => (Rejected (Rethrown e), rows')
  | (inl row, rows') => (Resolved row, rows')
  end.

(** The [mutationFn] of [useUpdateCompany]:
    [.update(data).eq('id', id).select().single()], then
    [if (error) throw error]. *)
Definition useUpdateCompany (R : rules) (entityId : uuid) (updates : changes)
  (rows : list entity) : promise entity * list entity :=
  match single rows (sql_update R (fun r => N.eqb (id r) entityId) updates rows) with
  | (inr e, rows') => (Rejected (Rethrown e), rows')
  | (inl row, rows') => (Resolved row, rows')
  end.

(** Versioned updates of one entity submitted one after the other,
    each by its own caller (hence under its own rules) and with its
    own expected version; every promise is collected. *)
Fixpoint submit_all (entityId : uuid) (reqs : list (rules * changes * Z))
  (rows : list entity) : list (promise entity) * list entity :=
  match reqs with
  | [] => ([], rows)
  | (R, u, expectedVersion) :: rest =>
      let (p, rows') := updateWithVersionCheck R entityId u expectedVersion rows in
      let (ps, rows'') := submit_all entityId rest rows' in
      (p :: ps, rows'')
  end.

(** [SELECT version FROM t WHERE id = entityId], read as the table
    owner. *)
Definition stored_version (entityId : uuid) (rows : list entity) : option (option Z) :=
  option_map version (find (fun r => N.eqb (id r) entityId) rows).

(** The row a versioned update of [OLD], stored at version [v], saves. *)
Definition saved_row (R : rules) (c : changes) (OLD : entity) (v : Z) : entity :=
  mkEntity (id OLD) (Some (v + 1)) (set_updated_at R (set_data c (data OLD))).

(** What the UPDATE still asks of a row stored at version [v] that the
    caller can read: the UPDATE policy admits it, the trigger's
    addition stays in range, and the new row passes the policy check
    and the constraints. *)
Definition writable (R : rules) (c : changes) (table : list entity)
  (OLD : entity) (v : Z) : bool :=
  can_update R OLD
  && (v <? int4_max)
  && new_row_allowed R (saved_row R c OLD v)
  && match violated R table (saved_row R c OLD v) with
     | None => true
     | Some _ => false
     end.

(** The part of the caller's [profiles] row the policies read
    ([staff_role], [is_staff = true], [is_active = true],
    [company_id]); a caller without a profiles row has no role, is not
    staff and belongs to no company. *)
Record caller : Type := mkCaller {
  staff_role_of : option staff_role;
  is_staff : bool;
  is_active : bool;
  company_id : option uuid
}.

(** The policies of [companies] (002_rls_policies.sql, lines 150-168):
    "Staff view all companies" [is_staff()], "Clients view own company"
    [belongs_to_company(id)], and "Authorized staff update companies"
    [get_staff_role() IN ('admin', 'management', 'sales')], which has
    no WITH CHECK.  Policies for one command are combined with OR. *)
Definition companies_can_select (c : caller) (e : entity) : bool :=
  (is_staff c && is_active c)
  || (match company_id c with Some cid => N.eqb cid (id e) | None => false end
      && is_active c).

Definition companies_can_update (c : caller) (e : entity) : bool :=
  match staff_role_of c with
  | Some admin | Some management | Some sales => true
  | _ => false
  end.

Definition companies_rules (c : caller) (touch : payload -> payload)
  (constraints : list entity -> entity -> option sql_error) : rules :=
  mkRules (companies_can_select c) (companies_can_update c)
          (fun NEW => companies_can_update c NEW && companies_can_select c NEW)
          touch constraints.

End Entity.

Arguments mkEntity {payload}.
Arguments id {payload}.
Arguments version {payload}.
Arguments data {payload}.
Arguments mkChanges {payload}.
Arguments set_version {payload}.
Arguments set_data {payload}.
Arguments apply_changes {payload}.
Arguments increment_version {payload}.
Arguments mkRules {payload}.
Arguments can_select {payload}.
Arguments can_update {payload}.
Arguments new_row_allowed {payload}.
Arguments set_updated_at {payload}.
Arguments violated {payload}.
Arguments update_updated_at {payload}.
Arguments new_row {payload}.
Arguments selected {payload}.
Arguments update_rows {payload}.
Arguments sql_update {payload}.
Arguments single {payload}.
Arguments id_and_version {payload}.
Arguments updateWithVersionCheck {payload}.
Arguments useUpdateCompany {payload}.
Arguments submit_all {payload}.
Arguments stored_version {payload}.
Arguments saved_row {payload}.
Arguments writable {payload}.
Arguments companies_can_select {payload}.
Arguments companies_can_update {payload}.
Arguments companies_rules {payload}.

End VersionGuard.

(** ** The client: presence service and the locking hooks *)

Module Client.

Import LockStore.

(** The [LockResult] interface; absent members are [None]. *)
Record LockResult : Type := mkLockResult {
  r_success : bool;
  r_lock_id : option uuid;
  r_expires_at : option timestamptz;
  r_extended : option bool;
  r_took_over : option bool;
  r_created : option bool;
  r_error : option string;
  r_locked_by : option uuid;
  r_locked_by_name : option text;
  r_locked_at : option timestamptz
}.

(** The JSONB object of [acquire_lock] read as a [LockResult]. *)
Definition as_LockResult (j : acquire_json) : LockResult :=
  match j with
  | NotAuthenticated =>
      mkLockResult false None None None None None
                   (Some "Not authenticated"%string) None None None
  | Extended i e =>
      mkLockResult true (Some i) (Some e) (Some true) None None None None None None
  | TookOver i e =>
      mkLockResult true (Some i) (Some e) None (Some true) None None None None None
  | Created i e =>
      mkLockResult true (Some i) (Some e) None None (Some true) None None None None
  | Denied b n a e =>
      mkLockResult false None (Some e) None None None
                   (Some "Record is being edited"%string) (Some b) (Some n) a
  end.

(** What [supabase.rpc('acquire_lock', ...)] resolves to: [data], or an
    [error] with its message (network failure, database error, or an
    exception raised inside the function). *)
Inductive rpc_response : Type :=
| RpcData (data : acquire_json)
| RpcError (message : string).

(** [acquireLock(entityType, entityId, durationMinutes)] with the
    Supabase client configured, as a function of the RPC response. *)
Definition acquireLock (resp : rpc_response) : LockResult :=
  match resp with
  | RpcError message =>
      mkLockResult false None None None None None (Some message) None None None
  | RpcData data => as_LockResult data
  end.

(** The [LockInfo] interface. *)
Record LockInfo : Type := mkLockInfo {
  locked : bool;
  is_mine : option bool;
  i_locked_by : option uuid;
  i_locked_by_name : option text;
  i_locked_at : option timestamptz;
  i_expires_at : option timestamptz
}.

Section EditMode.

(** The type of the record being edited. *)
Variable T : Type.

(** React state of [useEditMode] and of the [useRecordLock] it calls,
    with the [alert] messages shown so far. *)
Record hook_state : Type := mkHook {
  lockInfo : option LockInfo;
  isEditing : bool;
  editData : option T;
  alerts : list string
}.

(** [const isLockedByMe = lockInfo?.is_mine ?? false] *)
Definition isLockedByMe (st : hook_state) : bool :=
  match lockInfo st with
  | Some i => match is_mine i with Some b => b | None => false end
  | None => false
  end.

Definition setLockInfo (i : LockInfo) (st : hook_state) : hook_state :=
  mkHook (Some i) (isEditing st) (editData st) (alerts st).

(** The [onLockLost] callback [useEditMode] passes to [useRecordLock]. *)
Definition onLockLost (st : hook_state) : hook_state :=
  if isEditing st then
    mkHook (lockInfo st) false None
           (alerts st ++
            ["Your editing session was interrupted. Another user is now editing this record."%string])
  else st.

(** The [setInterval] callback of [useRecordLock] (lines 180-194), as a
    function of what the RPC of this tick answered. *)
Definition extend_tick (resp : rpc_response) (st : hook_state) : hook_state :=
  if isLockedByMe st then
    let result := acquireLock resp in
    if negb (r_success result) then
      onLockLost
        (setLockInfo (mkLockInfo true (Some false)
                                 (r_locked_by result) (r_locked_by_name result)
                                 None None) st)
    else st
  else st.

End EditMode.

Arguments mkHook {T}.
Arguments lockInfo {T}.
Arguments isEditing {T}.
Arguments editData {T}.
Arguments alerts {T}.
Arguments isLockedByMe {T}.
Arguments setLockInfo {T}.
Arguments onLockLost {T}.
Arguments extend_tick {T}.

End Client.

(** ** Racing calls of acquire_lock *)

Module Race.

Import LockStore.

(** [acquire_lock] runs its SELECT (line 87, no FOR UPDATE) and its
    INSERT or UPDATE as separate statements, and PostgreSQL runs every
    call in a transaction of its own at READ COMMITTED: statements of
    other calls may run between the two.  A call in flight is either
    not started, past its SELECTs with its local variables set, or
    finished with its result. *)
Inductive call : Type :=
| Pending (u : uuid) (now : timestamptz)
| Selected (now : timestamptz) (l : acquire_locals)
| Finished (r : outcome acquire_json).

Record system : Type := mkSystem {
  store : db;
  calls : list call
}.

(** One statement of one call, on the identity all calls race for.
    [now] is the call's NOW(), fixed when its transaction starts. *)
Definition advance (et : text) (eid : uuid) (dur : Z)
  (c : call) (d : db) : call * db :=
  match c with
  | Pending u now => (Selected now (acquire_select u et eid d), d)
  | Selected now l =>
      let (r, d') := acquire_branch l now et eid dur d in (Finished r, d')
  | Finished r => (Finished r, d)
  end.

Fixpoint replace_nth {A : Type} (n : nat) (x : A) (l : list A) : list A :=
  match n, l with
  | _, [] => []
  | O, _ :: t => x :: t
  | S n', h :: t => h :: replace_nth n' x t
  end.

(** The scheduler lets call number [i] run its next statement. *)
Definition step (et : text) (eid : uuid) (dur : Z)
  (s : system) (i : nat) : system :=
  match nth_error (calls s) i with
  | None => s
  | Some c =>
      let (c', d') := advance et eid dur c (store s) in
      mkSystem d' (replace_nth i c' (calls s))
  end.

Definition run (et : text) (eid : uuid) (dur : Z)
  (schedule : list nat) (s : system) : system :=
  fold_left (step et eid dur) schedule s.

End Race.

(** ** Table constraints and reachable lock stores *)

Module Inv.

Import LockStore.

Definition lock_key (r : record_lock) : text * uuid :=
  (entity_type r, entity_id r).

(** [UNIQUE(entity_type, entity_id)] *)
Definition unique_entity (rows : list record_lock) : Prop :=
  NoDup (map lock_key rows).

(** [id UUID PRIMARY KEY] *)
Definition primary_key (rows : list record_lock) : Prop :=
  NoDup (map id rows).

Definition well_formed (d : db) : Prop :=
  unique_entity (record_locks d) /\ primary_key (record_locks d).

(** The calls that write to [record_locks]. *)
Inductive operation : Type :=
| Acquire (auth : option uuid) (now : timestamptz)
          (et : text) (eid : uuid) (dur : Z)
| Release (auth : option uuid) (et : text) (eid : uuid)
| Cleanup (now : timestamptz).

Definition perform (o : operation) (d : db) : db :=
  match o with
  | Acquire auth now et eid dur => snd (acquire_lock auth now et eid dur d)
  | Release auth et eid => snd (release_lock auth et eid d)
  | Cleanup now => snd (cleanup_expired_locks now d)
  end.

(** The stores the operations can produce from an empty lock table. *)
Inductive reachable (ps : list profile) : db -> Prop :=
| reach_empty : reachable ps (mkDb ps [])
| reach_perform : forall d o, reachable ps d -> reachable ps (perform o d).

Definition rows_for (et : text) (eid : uuid) (d : db) : list record_lock :=
  filter (same_entity et eid) (record_locks d).

Definition live_rows_for (now : timestamptz) (et : text) (eid : uuid) (d : db)
  : list record_lock :=
  filter (fun r => same_entity et eid r && live now r) (record_locks d).

Definition is_denied (r : outcome acquire_json) : bool :=
  match r with Returned (Denied _ _ _ _) => true | _ => false end.

Definition is_took_over (r : outcome acquire_json) : bool :=
  match r with Returned (TookOver _ _) => true | _ => false end.

End Inv.

(** ** Presence writes and sweeps *)

Module PresenceStore.

Import Presence.

Definition sql_lt (x y : option Z) : option bool := sql_gt y x.

(** [INSERT INTO user_presence (...) VALUES (...)
     ON CONFLICT (user_id) DO UPDATE SET ...]: every column the table
    keeps besides the key is overwritten by the new values. *)
Definition upsert (row : user_presence) (rows : list user_presence)
  : list user_presence :=
  if existsb (fun r => N.eqb (user_id r) (user_id row)) rows
  then map (fun r => if N.eqb (user_id r) (user_id row) then row else r) rows
  else rows ++ [row].

(** [update_presence(p_current_page, p_entity_type, p_entity_id, p_status)];
    [user_name] is NOT NULL, so a caller without a profile row makes
    the INSERT raise. *)
Definition update_presence (auth : option uuid) (ps : list LockStore.profile)
  (now : timestamptz) (p_current_page p_entity_type : option text)
  (p_entity_id : option uuid) (p_status : option text)
  (rows : list user_presence) : outcome bool * list user_presence :=
  match auth with
  | None => (Returned false, rows)
  | Some u =>
      match LockStore.select_full_name u ps with
      | None => (Raised not_null_violation, rows)
      | Some name =>
          (Returned true,
           upsert (mkPresence u name p_current_page p_entity_type p_entity_id
                              p_status (Some now)) rows)
      end
  end.

(** [WHERE last_seen < NOW() - INTERVAL '5 minutes'] *)
Definition stale (now : timestamptz) (up : user_presence) : bool :=
  is_true (sql_lt (last_seen up) (Some (now - minutes 5))).

(** [cleanup_stale_presence()]: the DELETE and its ROW_COUNT. *)
Definition cleanup_stale_presence (now : timestamptz) (rows : list user_presence)
  : Z * list user_presence :=
  (Z.of_nat (List.length (filter (stale now) rows)),
   filter (fun up => negb (stale now up)) rows).

(** [UNIQUE(user_id)] *)
Definition one_row_per_user (rows : list user_presence) : Prop :=
  NoDup (map user_id rows).

End PresenceStore.

(** ** The rest of the presence service *)

Module Service.

Import LockStore.

(** What an RPC or a query resolves to: [data], or an [error]. *)
Inductive rpc (A : Type) : Type :=
| RpcOk (data : A)
| RpcFail (message : string).
Arguments RpcOk {A} data.
Arguments RpcFail {A} message.

(** JavaScript [x || y] and [x && y] on values that are [true],
    [false] or [undefined] ([None]). *)
Definition js_or (x y : option bool) : option bool :=
  match x with Some true => x | _ => y end.

Definition js_and (x y : option bool) : option bool :=
  match x with Some true => y | _ => x end.

Definition truthy (x : option bool) : bool :=
  match x with Some true => true | _ => false end.

(** [releaseLock(entityType, entityId)], client configured. *)
Definition releaseLock (resp : rpc bool) : bool :=
  match resp with
  | RpcFail _ => false
  | RpcOk data => data
  end.

(** The JSONB object of [check_lock] read as a [LockInfo]. *)
Definition as_LockInfo (j : check_json) : Client.LockInfo :=
  match j with
  | NotLocked => Client.mkLockInfo false None None None None None
  | Locked m b n a e => Client.mkLockInfo true m (Some b) (Some n) a (Some e)
  end.

(** [checkLock(entityType, entityId)], client configured. *)
Definition checkLock (resp : rpc check_json) : Client.LockInfo :=
  match resp with
  | RpcFail _ => Client.mkLockInfo false None None None None None
  | RpcOk data => as_LockInfo data
  end.

(** [extendLock]: [result.success && (result.extended || result.created)];
    the value is [true], [false] or [undefined]. *)
Definition extendLock (resp : Client.rpc_response) : option bool :=
  let result := Client.acquireLock resp in
  js_and (Some (Client.r_success result))
         (js_or (Client.r_extended result) (Client.r_created result)).

(** [updatePresence(state)], client configured. *)
Definition updatePresence (resp : rpc bool) : bool :=
  match resp with
  | RpcFail _ => false
  | RpcOk data => data
  end.

(** [getViewers(entityType, entityId)]: [(data as Viewer[]) || []]. *)
Definition getViewers (resp : rpc (option (list Presence.viewer)))
  : list Presence.viewer :=
  match resp with
  | RpcFail _ => []
  | RpcOk (Some data) => data
  | RpcOk None => []
  end.

Section Versioned.

Variable payload : Type.

(** [.from(table).select('version').eq('id', entityId).single()]:
    the [version] of the one matching row the caller's SELECT policy
    shows, or error PGRST116. *)
Definition select_version (R : VersionGuard.rules payload) (entityId : uuid)
  (rows : list (VersionGuard.entity payload))
  : option Z + VersionGuard.postgrest_error :=
  match filter (fun r => N.eqb (VersionGuard.id r) entityId
                         && VersionGuard.can_select R r) rows with
  | [r] => inl (VersionGuard.version r)
  | _ => inr VersionGuard.PGRST116
  end.

(** [checkVersion(table, entityId, expectedVersion)], client
    configured: [false] on error, else
    [data?.version === expectedVersion]. *)
Definition checkVersion (R : VersionGuard.rules payload) (entityId : uuid)
  (expectedVersion : Z) (rows : list (VersionGuard.entity payload)) : bool :=
  match select_version R entityId rows with
  | inr _ => false
  | inl None => false
  | inl (Some v) => Z.eqb v expectedVersion
  end.

End Versioned.

Arguments select_version {payload}.
Arguments checkVersion {payload}.

End Service.

(** ** The rest of useRecordLock and useEditMode *)

Module Hooks.

Import LockStore Client Service.

Section EditSession.

(** The type of the record being edited, and the hook's [entityId]
    option ([null] is [None]). *)
Variable T : Type.
Variable entityId : option uuid.

(** Calls that leave the component, in the order they are made. *)
Inductive effect : Type :=
| ReleaseLockRpc
| OnSave (d : T)
| OnCancel.

(** React state of [useEditMode] on top of [useRecordLock]:
    [hook] holds lockInfo, isEditing, editData and the alerts. *)
Record session : Type := mkSession {
  hook : hook_state T;
  error : option string;
  isSaving : bool;
  effects : list effect
}.

Definition with_hook (h : hook_state T) (s : session) : session :=
  mkSession h (error s) (isSaving s) (effects s).

Definition with_effect (e : effect) (s : session) : session :=
  mkSession (hook s) (error s) (isSaving s) (effects s ++ [e]).

(** [const isLocked = lockInfo?.locked ?? false] *)
Definition isLocked (s : session) : bool :=
  match lockInfo (hook s) with Some i => locked i | None => false end.

(** [const isLockedByOther = isLocked && !isLockedByMe] *)
Definition isLockedByOther (s : session) : bool :=
  isLocked s && negb (isLockedByMe (hook s)).

Definition no_entity_id : LockResult :=
  mkLockResult false None None None None None (Some "No entity ID"%string)
               None None None.

(** [result.error || 'Failed to acquire lock'] *)
Definition error_or_default (e : option string) : string :=
  match e with
  | Some m => if String.eqb m ""%string then "Failed to acquire lock"%string else m
  | None => "Failed to acquire lock"%string
  end.

(** [acquire] of [useRecordLock] (lines 84-122), as a function of the
    RPC response; [useEditMode] passes no [onLockAcquired]. *)
Definition acquire (resp : rpc_response) (s : session) : LockResult * session :=
  match entityId with
  | None => (no_entity_id, s)
  | Some _ =>
      let result := acquireLock resp in
      if r_success result then
        (result,
         mkSession
           (setLockInfo (mkLockInfo true (Some true) None None None
                                    (r_expires_at result)) (hook s))
           None (isSaving s) (effects s))
      else
        (result,
         mkSession
           (setLockInfo (mkLockInfo true (Some false)
                                    (r_locked_by result) (r_locked_by_name result)
                                    (r_locked_at result) (r_expires_at result))
                        (hook s))
           (Some (error_or_default (r_error result))) (isSaving s) (effects s))
  end.

(** [release] of [useRecordLock] (lines 125-139). *)
Definition release (resp : rpc bool) (s : session) : bool * session :=
  match entityId with
  | None => (false, s)
  | Some _ =>
      let s1 := with_effect ReleaseLockRpc s in
      if releaseLock resp
      then (true, with_hook (setLockInfo (mkLockInfo false None None None None None)
                                         (hook s1)) s1)
      else (false, s1)
  end.

(** [refresh] of [useRecordLock] (lines 67-81): the lock-lost test
    reads the [isLockedByMe] of the last render. *)
Definition refresh (resp : rpc check_json) (s : session) : session :=
  match entityId with
  | None => s
  | Some _ =>
      let info := checkLock resp in
      let h := setLockInfo info (hook s) in
      if isLockedByMe (hook s)
         && negb (truthy (is_mine info)) && locked info
      then with_hook (onLockLost h) s
      else with_hook h s
  end.

(** The [subscribeToLocks] callback (lines 146-152). *)
Definition on_lock_change (is_delete : bool) (resp : rpc check_json) (s : session)
  : session :=
  if is_delete
  then with_hook (setLockInfo (mkLockInfo false None None None None None) (hook s)) s
  else refresh resp s.

(** The unmount cleanup (lines 205-211). *)
Definition unmount (s : session) : session :=
  match entityId with
  | Some _ => if isLockedByMe (hook s) then with_effect ReleaseLockRpc s else s
  | None => s
  end.

(** [startEdit] of [useEditMode] (lines 297-308). *)
Definition startEdit (initialData : option T) (resp : rpc_response) (s : session)
  : bool * session :=
  match initialData with
  | None => (false, s)
  | Some d =>
      let (result, s1) := acquire resp s in
      if r_success result
      then (true, with_hook (mkHook (lockInfo (hook s1)) true (Some d)
                                    (alerts (hook s1))) s1)
      else (false, s1)
  end.

(** [cancelEdit] of [useEditMode] (lines 311-316). *)
Definition cancelEdit (resp : rpc bool) (s : session) : session :=
  let s1 := with_hook (mkHook (lockInfo (hook s)) false None (alerts (hook s))) s in
  with_effect OnCancel (snd (release resp s1)).

(** [saveEdit] of [useEditMode] (lines 319-335); [saved] tells whether
    the promise of [onSave] resolved. *)
Definition saveEdit (saved : bool) (resp : rpc bool) (s : session) : bool * session :=
  match editData (hook s) with
  | None => (false, s)
  | Some d =>
      if negb (isLockedByMe (hook s)) then (false, s)
      else
        let s1 := with_effect (OnSave d) s in
        if saved then
          let s2 := with_hook (mkHook (lockInfo (hook s1)) false None
                                      (alerts (hook s1))) s1 in
          let s3 := snd (release resp s2) in
          (true, mkSession (hook s3) (error s3) false (effects s3))
        else (false, mkSession (hook s1) (error s1) false (effects s1))
  end.

(** One run of the auto-extension callback on a session. *)
Definition extend (resp : rpc_response) (s : session) : session :=
  with_hook (extend_tick resp (hook s)) s.

(** The auto-extension callback run once per interval, each run with
    the response its RPC got. *)
Fixpoint extend_each (resps : list rpc_response) (s : session) : session :=
  match resps with
  | [] => s
  | resp :: rest => extend_each rest (extend resp s)
  end.

End EditSession.

Arguments ReleaseLockRpc {T}.
Arguments OnSave {T} d.
Arguments OnCancel {T}.
Arguments mkSession {T}.
Arguments hook {T}.
Arguments error {T}.
Arguments isSaving {T}.
Arguments effects {T}.
Arguments with_hook {T}.
Arguments with_effect {T}.
Arguments isLocked {T}.
Arguments isLockedByOther {T}.
Arguments acquire {T}.
Arguments release {T}.
Arguments refresh {T}.
Arguments on_lock_change {T}.
Arguments unmount {T}.
Arguments startEdit {T}.
Arguments cancelEdit {T}.
Arguments saveEdit {T}.
Arguments extend {T}.
Arguments extend_each {T}.

End Hooks.

(** ** usePresence: status and idle tracking *)

Module PresenceHook.

Inductive status : Type := online | idle | editing.

Definition status_eqb (a b : status) : bool :=
  match a, b with
  | online, online | idle, idle | editing, editing => true
  | _, _ => false
  end.

(** [statusRef.current], whether an idle timeout is pending, and the
    statuses handed to [updatePresence], oldest first. *)
Record tracker : Type := mkTracker {
  statusRef : status;
  idleTimeout : bool;
  sent : list status
}.

Section SignedIn.

(** [user] of the auth store is non-null. *)
Variable user : bool.

(** [sendPresence(status?)] of [usePresence]. *)
Definition sendPresence (s : option status) (t : tracker) : tracker :=
  if user then
    let currentStatus := match s with Some x => x | None => statusRef t end in
    mkTracker currentStatus (idleTimeout t) (sent t ++ [currentStatus])
  else t.

(** [updateStatus(status)] *)
Definition updateStatus (s : status) (t : tracker) : tracker :=
  sendPresence (Some s) (mkTracker s (idleTimeout t) (sent t)).

(** [resetIdleTimer], run on mousedown, keydown, scroll, touchstart. *)
Definition resetIdleTimer (t : tracker) : tracker :=
  if status_eqb (statusRef t) editing then t
  else
    let t1 := if status_eqb (statusRef t) idle then updateStatus online t else t in
    mkTracker (statusRef t1) true (sent t1).

(** The 2-minute timeout set by [resetIdleTimer] fires. *)
Definition idle_timeout_fires (t : tracker) : tracker :=
  if idleTimeout t then
    let t1 := mkTracker (statusRef t) false (sent t) in
    if negb (status_eqb (statusRef t1) editing) then updateStatus idle t1 else t1
  else t.

(** The heartbeat interval callback. *)
Definition heartbeat (t : tracker) : tracker := sendPresence None t.

Inductive event : Type :=
| Activity
| IdleTimeoutFires
| Heartbeat
| UpdateStatus (s : status).

Definition handle (t : tracker) (e : event) : tracker :=
  match e with
  | Activity => resetIdleTimer t
  | IdleTimeoutFires => idle_timeout_fires t
  | Heartbeat => heartbeat t
  | UpdateStatus s => updateStatus s t
  end.

Definition handle_all (es : list event) (t : tracker) : tracker :=
  fold_left handle es t.

(** Events other than an explicit status change. *)
Definition passive (e : event) : bool :=
  match e with UpdateStatus _ => false | _ => true end.

(** The two events that can set the status to idle. *)
Definition may_go_idle (e : event) : bool :=
  match e with
  | IdleTimeoutFires | UpdateStatus idle => true
  | _ => false
  end.

End SignedIn.

End PresenceHook.

(** ** useDetailView: edit mode wired to presence *)

Module DetailView.

Import Client Service Hooks PresenceHook.

Section View.

Variable T : Type.
Variable entityId : option uuid.
Variable user : bool.

Record view : Type := mkView {
  edit : session T;
  presence : tracker
}.

(** [startEdit] of [useDetailView]: [updateStatus('editing')] on success. *)
Definition startEdit (initialData : option T) (resp : rpc_response) (v : view)
  : bool * view :=
  let (ok, s) := Hooks.startEdit entityId initialData resp (edit v) in
  (ok, mkView s (if ok then updateStatus user editing (presence v) else presence v)).

(** [saveEdit] with the [onSave] wrapper, which calls
    [updateStatus('online')] before the caller's [onSave]. *)
Definition saveEdit (saved : bool) (resp : rpc bool) (v : view) : bool * view :=
  let reaches_onSave :=
    match editData (hook (edit v)) with
    | Some _ => isLockedByMe (hook (edit v))
    | None => false
    end in
  let (ok, s) := Hooks.saveEdit entityId saved resp (edit v) in
  (ok, mkView s (if reaches_onSave then updateStatus user online (presence v)
                 else presence v)).

(** [cancelEdit] with the [onCancel] that calls [updateStatus('online')]. *)
Definition cancelEdit (resp : rpc bool) (v : view) : view :=
  mkView (Hooks.cancelEdit entityId resp (edit v))
         (updateStatus user online (presence v)).

End View.

Arguments mkView {T}.
Arguments edit {T}.
Arguments presence {T}.
Arguments startEdit {T}.
Arguments saveEdit {T}.
Arguments cancelEdit {T}.

End DetailView.

(** ** useRealtimeList: the list kept in step with change events *)

Module RealtimeList.

Section Items.

(** The record type of the list, its [id], and the test
    [!filter || matchesFilter(newRecord, filter)] of the hook's filter. *)
Variable T : Type.
Variable item_id : T -> string.
Variable accepts : T -> bool.

Record list_state : Type := mkList {
  data : list T;
  totalCount : Z
}.

Inductive change : Type :=
| INSERT (newRecord : T)
| UPDATE (updatedRecord : T)
| DELETE (deletedId : string).

(** The [subscribeToTable] callback of [useRealtimeList]. *)
Definition on_change (s : list_state) (c : change) : list_state :=
  match c with
  | INSERT newRecord =>
      if accepts newRecord
      then mkList (newRecord :: data s) (totalCount s + 1)
      else s
  | UPDATE updatedRecord =>
      mkList (map (fun item =>
                     if String.eqb (item_id item) (item_id updatedRecord)
                     then updatedRecord else item) (data s))
             (totalCount s)
  | DELETE deletedId =>
      mkList (filter (fun item => negb (String.eqb (item_id item) deletedId)) (data s))
             (Z.max 0 (totalCount s - 1))
  end.

Definition on_changes (cs : list change) (s : list_state) : list_state :=
  fold_left on_change cs s.

End Items.

Arguments mkList {T}.
Arguments data {T}.
Arguments totalCount {T}.
Arguments INSERT {T}.
Arguments UPDATE {T}.
Arguments DELETE {T}.
Arguments on_change {T}.
Arguments on_changes {T}.

End RealtimeList.

(** ** Small pure helpers *)

Module Ui.

(** JavaScript's decimal rendering of an integer. *)
Definition decimal (z : Z) : string := NilZero.string_of_int (Z.to_int z).

(** [formatTimeAgo(date)]: [now] is [Date.now()], [date] the time value
    of the Date in milliseconds, [None] for an Invalid Date (NaN), for
    which every comparison is false. *)
Definition formatTimeAgo (now : Z) (date : option Z) : string :=
  match date with
  | None => "NaN days ago"%string
  | Some t =>
      let seconds := (now - t) / 1000 in
      if seconds <? 60 then "just now"%string
      else if seconds <? 3600
           then String.append (decimal (seconds / 60)) " minutes ago"
      else if seconds <? 86400
           then String.append (decimal (seconds / 3600)) " hours ago"
      else String.append (decimal (seconds / 86400)) " days ago"
  end.

(** [retryDelay: (attemptIndex) => Math.min(1000 * 2 ** attemptIndex, 30000)] *)
Definition retryDelay (attemptIndex : N) : Z :=
  Z.min (1000 * 2 ^ Z.of_N attemptIndex) 30000.

End Ui.

(** ** The hooks run against the lock store *)

Module EndToEnd.

Import LockStore Client Service Hooks.

Section Wire.

Variable T : Type.

(** The message PostgREST reports for an error raised inside a
    function. *)
Variable message_of : sql_error -> string.

Definition acquire_response (o : outcome acquire_json) : rpc_response :=
  match o with
  | Returned j => RpcData j
  | Raised e => RpcError (message_of e)
  end.

(** [startEdit] with its [acquire_lock] RPC served by the store. *)
Definition startEdit (auth : option uuid) (now : timestamptz)
  (et : text) (eid : uuid) (dur : Z) (initialData : option T)
  (s : session T) (d : db) : bool * session T * db :=
  match initialData with
  | None => (false, s, d)
  | Some _ =>
      let (o, d') := acquire_lock auth now et eid dur d in
      (Hooks.startEdit (Some eid) initialData (acquire_response o) s, d')
  end.

(** [cancelEdit] with its [release_lock] RPC served by the store. *)
Definition cancelEdit (auth : option uuid) (et : text) (eid : uuid)
  (s : session T) (d : db) : session T * db :=
  let (released, d') := release_lock auth et eid d in
  (Hooks.cancelEdit (Some eid) (RpcOk released) s, d').

(** One auto-extension tick with its RPC served by the store. *)
Definition extend (auth : option uuid) (now : timestamptz)
  (et : text) (eid : uuid) (dur : Z) (s : session T) (d : db) : session T * db :=
  if isLockedByMe (hook s) then
    let (o, d') := acquire_lock auth now et eid dur d in
    (Hooks.extend (acquire_response o) s, d')
  else (s, d).

End Wire.

Arguments startEdit {T}.
Arguments cancelEdit {T}.
Arguments extend {T}.

End EndToEnd.

(** ** Observations on results *)

Module Obs.

Import LockStore.

(** A call that returned an object whose ['success'] is true. *)
Definition succeeded (o : outcome acquire_json) : bool :=
  match o with
  | Returned j => success j
  | Raised _ => false
  end.

Definition holder_and_expiry (r : record_lock) : uuid * timestamptz :=
  (locked_by r, expires_at r).

End Obs.

(** ** Concrete stores used to run the definitions *)

Module Sample.

Import LockStore.
Local Open Scope string_scope.

Definition alice : uuid := 1%N.
Definition bob : uuid := 2%N.
Definition carol : uuid := 3%N.

Definition people : list profile :=
  [mkProfile alice "Alice"; mkProfile bob "Bob"; mkProfile carol "Carol"].

(** A signed-in user whose [profiles] row is missing. *)
Definition stranger : uuid := 9%N.

(** No lock at all. *)
Definition no_locks : db := mkDb people [].

(** Alice locked job 7 at time 0 for 15 minutes. *)
Definition alice_row : record_lock :=
  mkLock 10%N "job" 7%N alice "Alice" (Some 0) (minutes 15).

Definition alice_editing : db := mkDb people [alice_row].

(** A companies table: company 1 was saved once since a client
    read it at version 3, company 2 was never updated. *)
Definition companies : list (VersionGuard.entity string) :=
  [VersionGuard.mkEntity 1%N (Some 4) "Acme Calibration"%string;
   VersionGuard.mkEntity 2%N (Some 1) "Beta Metrology"%string].

(** A company whose version counter reached the top of INTEGER. *)
Definition worn_out : list (VersionGuard.entity string) :=
  [VersionGuard.mkEntity 1%N (Some int4_max) "Acme Calibration"%string].

Definition rename (name : string) : VersionGuard.changes string :=
  VersionGuard.mkChanges None (fun _ => name).

(** Callers of the companies table: a salesperson, a technician, a
    deactivated administrator, a client user of company 2 and a
    signed-in user without a profiles row. *)
Definition salesperson : VersionGuard.caller :=
  VersionGuard.mkCaller (Some VersionGuard.sales) true true None.

Definition field_technician : VersionGuard.caller :=
  VersionGuard.mkCaller (Some VersionGuard.technician) true true None.

Definition former_admin : VersionGuard.caller :=
  VersionGuard.mkCaller (Some VersionGuard.admin) true false None.

Definition client_of_beta : VersionGuard.caller :=
  VersionGuard.mkCaller None false true (Some 2%N).

Definition no_profile : VersionGuard.caller :=
  VersionGuard.mkCaller None false false None.

(** The rules of [companies] seen through its [name] column alone:
    [updated_at] is not among the columns kept, and a value of [name]
    cannot violate the column's NOT NULL. *)
Definition names_only (c : VersionGuard.caller) : VersionGuard.rules string :=
  VersionGuard.companies_rules c (fun name => name) (fun _ _ => None).

(** [companies] with the columns [company_code], [name] and
    [updated_at]. *)
Record company : Type := mkCompany {
  company_code : string;
  name : string;
  updated_at : timestamptz
}.

(** [company_code TEXT UNIQUE NOT NULL] for the new row of an UPDATE. *)
Definition company_code_unique (table : list (VersionGuard.entity company))
  (NEW : VersionGuard.entity company) : option sql_error :=
  if existsb (fun x => negb (N.eqb (VersionGuard.id x) (VersionGuard.id NEW))
                       && String.eqb (company_code (VersionGuard.data x))
                                     (company_code (VersionGuard.data NEW)))
             table
  then Some unique_violation else None.

(** The rules of [companies] for a request of caller [c] at [now]. *)
Definition registry_rules (c : VersionGuard.caller) (now : timestamptz)
  : VersionGuard.rules company :=
  VersionGuard.companies_rules c
    (fun row => mkCompany (company_code row) (name row) now)
    company_code_unique.

Definition registry : list (VersionGuard.entity company) :=
  [VersionGuard.mkEntity 1%N (Some 4) (mkCompany "ACME0001" "Acme Calibration" 0);
   VersionGuard.mkEntity 2%N (Some 1) (mkCompany "BETA0002" "Beta Metrology" 0)].

Definition recode (code : string) : VersionGuard.changes company :=
  VersionGuard.mkChanges None
    (fun row => mkCompany code (name row) (updated_at row)).

Definition retitle (title : string) : VersionGuard.changes company :=
  VersionGuard.mkChanges None
    (fun row => mkCompany (company_code row) title (updated_at row)).

(** Presence rows on job 7: Bob seen 30 s ago, Carol 3 minutes ago. *)
Definition onlookers (now : timestamptz) : list Presence.user_presence :=
  [Presence.mkPresence bob "Bob" (Some "/jobs/7"%string) (Some "job"%string)
                       (Some 7%N) (Some "online"%string) (Some (now - 30000000));
   Presence.mkPresence carol "Carol" (Some "/jobs/7"%string) (Some "job"%string)
                       (Some 7%N) (Some "idle"%string) (Some (now - minutes 3))].

(** An edit session that holds the lock, with unsaved input. *)
Definition editing_session : Client.hook_state string :=
  Client.mkHook
    (Some (Client.mkLockInfo true (Some true) None None None (Some (minutes 15))))
    true (Some "unsaved draft"%string) [].

(** Two calls racing for job 7: both run their SELECTs, then both
    write; or one call runs to its end before the other starts. *)
Definition both_select_first : list nat := [0%nat; 1%nat; 0%nat; 1%nat].

Definition one_after_the_other : list nat := [0%nat; 0%nat; 1%nat; 1%nat].

Definition bob_and_carol (now : timestamptz) (d : db) : Race.system :=
  Race.mkSystem d [Race.Pending bob now; Race.Pending carol now].

End Sample.

(** ** Concrete sessions, trackers and lists *)

Module Scenario.

Import LockStore Client Service Hooks.
Local Open Scope string_scope.

(** The SQLSTATE code stands in for the error message. *)
Definition sqlstate (e : sql_error) : string :=
  match e with
  | not_null_violation => "23502"
  | unique_violation => "23505"
  | numeric_value_out_of_range => "22003"
  | insufficient_privilege => "42501"
  | foreign_key_violation => "23503"
  | check_violation => "23514"
  end.

(** A freshly mounted edit hook. *)
Definition fresh_session : session string :=
  mkSession (mkHook None false None []) None false [].

(** An editor holding the lock with unsaved input. *)
Definition editor : session string :=
  mkSession Sample.editing_session None false [].

(** Alice's lock on job 7 and Bob's on quote 9. *)
Definition bob_row : record_lock :=
  mkLock 11%N "quote" 9%N Sample.bob "Bob" (Some 0) (minutes 15).

Definition two_locks : db := mkDb Sample.people [Sample.alice_row; bob_row].

(** A presence tracker in the middle of an edit. *)
Definition editing_tracker : PresenceHook.tracker :=
  PresenceHook.mkTracker PresenceHook.editing true
    [PresenceHook.online; PresenceHook.editing].

(** A detail view in the middle of an edit. *)
Definition editing_view : DetailView.view string :=
  DetailView.mkView editor editing_tracker.

(** A two-item list with a total count of 40. *)
Definition page : RealtimeList.list_state (string * string) :=
  RealtimeList.mkList [("c1", "Acme"); ("c2", "Beta")] 40.

End Scenario.

(** * Properties *)

Import LockStore Inv.

(** ** Lemmas on the SQL statements *)

Lemma same_entity_key (et : text) (eid : uuid) (r : record_lock) :
  same_entity et eid r = true <-> lock_key r = (et, eid).
Proof.
  unfold same_entity, lock_key.
  rewrite andb_true_iff, String.eqb_eq, N.eqb_eq.
  split.
  - intros [-> ->]. reflexivity.
  - intros H. inversion H. split; reflexivity.
Qed.

Lemma find_all_false {A : Type} (f : A -> bool) (l : list A) :
  (forall x, In x l -> f x = false) -> find f l = None.
Proof.
  induction l as [|a l IH]; simpl; intros H.
  - reflexivity.
  - rewrite (H a (or_introl eq_refl)). apply IH. intros x Hx. apply H. now right.
Qed.

Lemma select_lock_unique (et : text) (eid : uuid) (rows : list record_lock) (r : record_lock) :
  unique_entity rows -> In r rows -> same_entity et eid r = true ->
  select_lock et eid rows = Some r.
Proof.
  unfold unique_entity, select_lock.
  induction rows as [|a rows IH]; simpl; intros Hnd Hin Hr.
  - contradiction.
  - inversion Hnd as [|? ? Hnotin Hnd']; subst.
    destruct (same_entity et eid a) eqn:Ha.
    + destruct Hin as [->|Hin]; [reflexivity|].
      exfalso. apply Hnotin.
      apply same_entity_key in Ha. apply same_entity_key in Hr.
      rewrite Ha, <- Hr. now apply in_map.
    + destruct Hin as [->|Hin]; [congruence|]. now apply IH.
Qed.

Lemma filter_unique_length {A K : Type} (key : A -> K) (p : A -> bool) (k : K) (l : list A) :
  NoDup (map key l) -> (forall x, p x = true -> key x = k) ->
  (List.length (filter p l) <= 1)%nat.
Proof.
  intros Hnd Hp.
  induction l as [|a l IH]; simpl; [lia|].
  inversion Hnd as [|? ? Hnotin Hnd']; subst.
  destruct (p a) eqn:Ha; [|now apply IH].
  assert (Hnil : filter p l = []).
  { destruct (filter p l) as [|b t] eqn:Hf; [reflexivity|].
    exfalso. apply Hnotin.
    assert (Hb : In b (filter p l)) by (rewrite Hf; now left).
    apply filter_In in Hb. destruct Hb as [Hb Hpb].
    rewrite (Hp a Ha), <- (Hp b Hpb). now apply in_map. }
  rewrite Hnil. simpl. lia.
Qed.

Lemma NoDup_map_filter {A K : Type} (key : A -> K) (p : A -> bool) (l : list A) :
  NoDup (map key l) -> NoDup (map key (filter p l)).
Proof.
  induction l as [|a l IH]; simpl; intros Hnd; [constructor|].
  inversion Hnd as [|? ? Hnotin Hnd']; subst.
  destruct (p a); simpl; [|now apply IH].
  constructor; [|now apply IH].
  intros Hin. apply Hnotin.
  apply in_map_iff in Hin. destruct Hin as [x [Hx Hin]].
  apply filter_In in Hin. rewrite <- Hx. apply in_map. tauto.
Qed.

Lemma NoDup_snoc {A : Type} (l : list A) (x : A) :
  NoDup l -> ~ In x l -> NoDup (l ++ [x]).
Proof.
  induction l as [|a l IH]; simpl; intros Hnd Hx.
  - constructor; [tauto|constructor].
  - inversion Hnd as [|? ? Hnotin Hnd']; subst.
    constructor.
    + rewrite in_app_iff. simpl. intros [H|[H|[]]]; [tauto|]. apply Hx. now left.
    + apply IH; tauto.
Qed.

Lemma uuid_generate_above (rows : list record_lock) (r : record_lock) :
  In r rows -> (id r < uuid_generate rows)%N.
Proof.
  unfold uuid_generate.
  induction rows as [|a rows IH]; simpl; intros Hin; [contradiction|].
  destruct Hin as [->|Hin].
  - lia.
  - specialize (IH Hin). lia.
Qed.

Lemma uuid_generate_fresh (rows : list record_lock) :
  ~ In (uuid_generate rows) (map id rows).
Proof.
  intros Hin. apply in_map_iff in Hin. destruct Hin as [r [Hid Hr]].
  pose proof (uuid_generate_above rows r Hr). lia.
Qed.

Lemma update_extend_keys (i : uuid) (now e : timestamptz) (rows : list record_lock) :
  map lock_key (update_extend i now e rows) = map lock_key rows
  /\ map id (update_extend i now e rows) = map id rows.
Proof.
  unfold update_extend. rewrite !map_map.
  split; apply map_ext; intros r; destruct (N.eqb (id r) i); reflexivity.
Qed.

Lemma update_takeover_keys (i u : uuid) (n : text) (now e : timestamptz)
  (rows : list record_lock) :
  map lock_key (update_takeover i u n now e rows) = map lock_key rows
  /\ map id (update_takeover i u n now e rows) = map id rows.
Proof.
  unfold update_takeover. rewrite !map_map.
  split; apply map_ext; intros r; destruct (N.eqb (id r) i); reflexivity.
Qed.

Lemma no_row_for_entity (et : text) (eid : uuid) (rows : list record_lock) :
  existsb (same_entity et eid) rows = false -> ~ In (et, eid) (map lock_key rows).
Proof.
  intros Hex Hin.
  apply in_map_iff in Hin. destruct Hin as [r [Hk Hr]].
  assert (Ht : existsb (same_entity et eid) rows = true).
  { apply existsb_exists. exists r. split; [assumption|]. now apply same_entity_key. }
  congruence.
Qed.

Lemma insert_lock_well_formed (et : text) (eid u : uuid) (n : text)
  (now e : timestamptz) (rows rows' : list record_lock) (i : uuid) :
  unique_entity rows -> primary_key rows ->
  insert_lock et eid u n now e rows = Returned (i, rows') ->
  unique_entity rows' /\ primary_key rows'.
Proof.
  unfold insert_lock, unique_entity, primary_key. intros Hu Hp.
  destruct (existsb (same_entity et eid) rows) eqn:Hex; [discriminate|].
  intros H. inversion H; subst; clear H.
  rewrite !map_app. simpl. split; apply NoDup_snoc; try assumption.
  - now apply no_row_for_entity.
  - apply uuid_generate_fresh.
Qed.

(** The write half of [acquire_lock] keeps both constraints, whatever
    the local variables hold. *)
Lemma acquire_branch_well_formed (l : acquire_locals) (now : timestamptz)
  (et : text) (eid : uuid) (dur : Z) (d : db) :
  well_formed d -> well_formed (snd (acquire_branch l now et eid dur d)).
Proof.
  intros [Hu Hp]. unfold acquire_branch.
  destruct (v_existing_lock l) as [ex|].
  - destruct (N.eqb (locked_by ex) (v_user_id l)).
    + simpl. unfold well_formed, unique_entity, primary_key. simpl.
      destruct (update_extend_keys (id ex) now (now + minutes dur) (record_locks d)) as [-> ->].
      now split.
    + destruct (expires_at ex <? now); [|now split].
      destruct (v_user_name l) as [name|].
      * simpl. unfold well_formed, unique_entity, primary_key. simpl.
        destruct (update_takeover_keys (id ex) (v_user_id l) name now
                    (now + minutes dur) (record_locks d)) as [-> ->].
        now split.
      * destruct (existsb _ (record_locks d)); now split.
  - destruct (v_user_name l) as [name|]; [|now split].
    destruct (insert_lock et eid (v_user_id l) name now (now + minutes dur)
                (record_locks d)) as [[i rows']|e] eqn:Hins; [|now split].
    simpl. unfold well_formed. simpl.
    now apply (insert_lock_well_formed et eid (v_user_id l) name now
                 (now + minutes dur) (record_locks d) rows' i).
Qed.

Lemma perform_well_formed (o : operation) (d : db) :
  well_formed d -> well_formed (perform o d).
Proof.
  intros Hwf. destruct o as [auth now et eid dur|auth et eid|now]; simpl.
  - destruct auth as [u|]; simpl; [|assumption].
    now apply acquire_branch_well_formed.
  - destruct auth as [u|]; simpl; [|assumption].
    destruct Hwf as [Hu Hp]. split; simpl; now apply NoDup_map_filter.
  - destruct Hwf as [Hu Hp]. split; simpl; now apply NoDup_map_filter.
Qed.

Lemma reachable_well_formed (ps : list profile) (d : db) :
  reachable ps d -> well_formed d.
Proof.
  induction 1 as [|d o _ IH].
  - split; constructor.
  - now apply perform_well_formed.
Qed.

Lemma rows_for_at_most_one (et : text) (eid : uuid) (d : db) :
  well_formed d -> (List.length (rows_for et eid d) <= 1)%nat.
Proof.
  intros [Hu _]. unfold rows_for.
  apply (filter_unique_length lock_key _ (et, eid)); [assumption|].
  intros x Hx. now apply same_entity_key.
Qed.

Lemma live_rows_for_at_most_one (now : timestamptz) (et : text) (eid : uuid) (d : db) :
  well_formed d -> (List.length (live_rows_for now et eid d) <= 1)%nat.
Proof.
  intros [Hu _]. unfold live_rows_for.
  apply (filter_unique_length lock_key _ (et, eid)); [assumption|].
  intros x Hx. apply andb_true_iff in Hx. now apply same_entity_key.
Qed.

(** With the unique constraint, [check_lock] reports the one live row
    of the identity, wherever it sits in the table. *)
Lemma check_lock_reports_row (auth : option uuid) (now : timestamptz)
  (et : text) (eid : uuid) (d : db) (r : record_lock) :
  well_formed d -> In r (record_locks d) ->
  same_entity et eid r = true -> live now r = true ->
  check_lock auth now et eid d =
  Locked (sql_eq N.eqb (Some (locked_by r)) auth)
         (locked_by r) (locked_by_name r) (locked_at r) (expires_at r).
Proof.
  intros [Hu _] Hin Hk Hl. unfold check_lock.
  assert (Hf : find (fun r0 => same_entity et eid r0 && live now r0) (record_locks d) = Some r).
  { unfold unique_entity in Hu. revert Hu Hin.
    induction (record_locks d) as [|a rows IH]; simpl; intros Hnd Hin; [contradiction|].
    inversion Hnd as [|? ? Hnotin Hnd']; subst.
    destruct Hin as [->|Hin].
    - now rewrite Hk, Hl.
    - destruct (same_entity et eid a) eqn:Ha; simpl; [|now apply IH].
      exfalso. apply Hnotin.
      apply same_entity_key in Ha. apply same_entity_key in Hk.
      rewrite Ha, <- Hk. now apply in_map. }
  now rewrite Hf.
Qed.

Lemma check_lock_is_mine (u : uuid) (now : timestamptz)
  (et : text) (eid : uuid) (d : db) :
  is_mine_of (check_lock (Some u) now et eid d) = Some true ->
  exists r, In r (record_locks d) /\ same_entity et eid r = true
            /\ live now r = true /\ locked_by r = u.
Proof.
  unfold check_lock.
  destruct (find _ (record_locks d)) as [r|] eqn:Hf; simpl; [|discriminate].
  intros H. apply find_some in Hf. destruct Hf as [Hin Hc].
  apply andb_true_iff in Hc. destruct Hc as [Hk Hl].
  exists r. repeat split; try assumption.
  inversion H as [Heq]. now apply N.eqb_eq in Heq.
Qed.

(** C3: in every store reachable through acquire, release and cleanup
    there is at most one lock row per identity, hence at most one
    non-expired row at any instant, and two principals who both read
    is_mine = true from check_lock on one identity at one instant are
    the same principal; every operation leads to a store with the same
    properties. *)
Theorem one_lock_per_identity (ps : list profile) (d : db) :
  reachable ps d ->
  (forall et eid, (List.length (rows_for et eid d) <= 1)%nat)
  /\ (forall now et eid, (List.length (live_rows_for now et eid d) <= 1)%nat)
  /\ (forall now et eid u1 u2,
         is_mine_of (check_lock (Some u1) now et eid d) = Some true ->
         is_mine_of (check_lock (Some u2) now et eid d) = Some true ->
         u1 = u2)
  /\ (forall o, well_formed (perform o d)
                /\ (forall et eid, (List.length (rows_for et eid (perform o d)) <= 1)%nat)).
Proof.
  intros Hr. pose proof (reachable_well_formed ps d Hr) as Hwf.
  split; [|split; [|split]].
  - intros et eid. now apply rows_for_at_most_one.
  - intros now et eid. now apply live_rows_for_at_most_one.
  - intros now et eid u1 u2 H1 H2.
    apply check_lock_is_mine in H1. destruct H1 as [r1 [Hin1 [Hk1 [Hl1 Hb1]]]].
    pose proof (check_lock_reports_row (Some u2) now et eid d r1 Hwf Hin1 Hk1 Hl1) as Hc.
    rewrite Hc in H2. simpl in H2. inversion H2 as [Heq].
    apply N.eqb_eq in Heq. congruence.
  - intros o. pose proof (perform_well_formed o d Hwf) as Hwf'.
    split; [assumption|]. intros et eid. now apply rows_for_at_most_one.
Qed.

Lemma primary_key_injective (rows : list record_lock) (a b : record_lock) :
  primary_key rows -> In a rows -> In b rows -> id a = id b -> a = b.
Proof.
  unfold primary_key.
  induction rows as [|c rows IH]; simpl; intros Hnd Ha Hb Hid; [contradiction|].
  inversion Hnd as [|? ? Hnotin Hnd']; subst.
  destruct Ha as [->|Ha], Hb as [->|Hb].
  - reflexivity.
  - exfalso. apply Hnotin. rewrite Hid. now apply in_map.
  - exfalso. apply Hnotin. rewrite <- Hid. now apply in_map.
  - now apply IH.
Qed.

(** An UPDATE ... WHERE id = .. on a table with a primary key rewrites
    exactly the row with that id. *)
Lemma update_by_id_in (g : record_lock -> record_lock)
  (rows : list record_lock) (r : record_lock) :
  primary_key rows -> In r rows ->
  forall x,
    In x (map (fun y => if N.eqb (id y) (id r) then g y else y) rows)
    <-> x = g r \/ (In x rows /\ id x <> id r).
Proof.
  intros Hp Hr x. rewrite in_map_iff. split.
  - intros [y [Hy Hin]].
    destruct (N.eqb (id y) (id r)) eqn:E.
    + apply N.eqb_eq in E. left.
      rewrite <- (primary_key_injective rows y r Hp Hin Hr E). now symmetry.
    + apply N.eqb_neq in E. right. subst x. now split.
  - intros [->|[Hin Hne]].
    + exists r. rewrite N.eqb_refl. now split.
    + exists x. apply N.eqb_neq in Hne. rewrite Hne. now split.
Qed.

Lemma select_lock_none (et : text) (eid : uuid) (rows : list record_lock) :
  (forall r, In r rows -> same_entity et eid r = false) ->
  select_lock et eid rows = None /\ existsb (same_entity et eid) rows = false.
Proof.
  intros H. split.
  - now apply find_all_false.
  - destruct (existsb (same_entity et eid) rows) eqn:E; [|reflexivity].
    apply existsb_exists in E. destruct E as [r [Hin Hr]].
    rewrite (H r Hin) in Hr. discriminate.
Qed.

Lemma set_locks_same (d : db) : set_locks d (record_locks d) = d.
Proof. now destruct d. Qed.

(** C1, as the code has it: the outcomes of acquire_lock for an
    authenticated caller and a positive duration, on a table that
    satisfies its UNIQUE and PRIMARY KEY constraints.  For every
    caller: extended in place when the caller holds the row, and
    denied, with the holder's id, name, locked_at and expires_at and
    without any change to the store, when another holder's row has
    expires_at >= now.  For a caller who has a profiles row: created
    when the identity has no row, took_over when another holder's row
    has expires_at < now.  For a caller without a profiles row these
    two cases write NULL into the NOT NULL column [locked_by_name]:
    the call raises a not-null violation and the store is unchanged. *)
Theorem acquire_lock_outcomes (d : db) (u : uuid)
  (now : timestamptz) (et : text) (eid : uuid) (dur : Z) :
  well_formed d ->
  0 < dur ->
  let expires := now + minutes dur in
  let result := fst (acquire_lock (Some u) now et eid dur d) in
  let d' := snd (acquire_lock (Some u) now et eid dur d) in
  now < expires
  /\ profiles d' = profiles d
  /\ (forall name,
        select_full_name u (profiles d) = Some name ->
        (forall r, In r (record_locks d) -> same_entity et eid r = false) ->
        exists new_id,
          result = Returned (Created new_id expires)
          /\ ~ In new_id (map id (record_locks d))
          /\ record_locks d' =
             record_locks d ++ [mkLock new_id et eid u name (Some now) expires])
  /\ (select_full_name u (profiles d) = None ->
      (forall r, In r (record_locks d) -> same_entity et eid r = false) ->
      result = Raised not_null_violation /\ d' = d)
  /\ (forall r, In r (record_locks d) -> same_entity et eid r = true ->
      (locked_by r = u ->
       result = Returned (Extended (id r) expires)
       /\ List.length (record_locks d') = List.length (record_locks d)
       /\ forall x, In x (record_locks d') <->
                    x = mkLock (id r) (entity_type r) (entity_id r)
                               (locked_by r) (locked_by_name r) (Some now) expires
                    \/ (In x (record_locks d) /\ id x <> id r))
      /\ (forall name,
            select_full_name u (profiles d) = Some name ->
            locked_by r <> u -> expires_at r < now ->
            result = Returned (TookOver (id r) expires)
            /\ List.length (record_locks d') = List.length (record_locks d)
            /\ forall x, In x (record_locks d') <->
                         x = mkLock (id r) (entity_type r) (entity_id r)
                                    u name (Some now) expires
                         \/ (In x (record_locks d) /\ id x <> id r))
      /\ (select_full_name u (profiles d) = None ->
          locked_by r <> u -> expires_at r < now ->
          result = Raised not_null_violation /\ d' = d)
      /\ (locked_by r <> u -> now <= expires_at r ->
          result = Returned (Denied (locked_by r) (locked_by_name r)
                                    (locked_at r) (expires_at r))
          /\ d' = d)).
Proof.
  intros [Hu Hp] Hdur expires result d'.
  subst result d'. unfold acquire_lock, acquire_select, acquire_branch. simpl.
  fold expires.
  split; [unfold expires, minutes; lia|].
  split.
  { destruct (select_lock et eid (record_locks d)) as [ex|].
    - destruct (N.eqb (locked_by ex) u); [reflexivity|].
      destruct (expires_at ex <? now); [|reflexivity].
      destruct (select_full_name u (profiles d)); [reflexivity|].
      destruct (existsb _ (record_locks d)); reflexivity.
    - destruct (select_full_name u (profiles d)) as [name|]; [|reflexivity].
      destruct (insert_lock et eid u name now expires (record_locks d)) as [[i rows']|e];
        reflexivity. }
  split; [|split].
  - intros name Hname Hnone. apply select_lock_none in Hnone.
    destruct Hnone as [Hsel Hex].
    rewrite Hsel, Hname. unfold insert_lock. rewrite Hex. simpl.
    exists (uuid_generate (record_locks d)).
    split; [reflexivity|]. split; [apply uuid_generate_fresh|reflexivity].
  - intros Hname Hnone. apply select_lock_none in Hnone.
    destruct Hnone as [Hsel _].
    rewrite Hsel, Hname. split; reflexivity.
  - intros r Hin Hk.
    rewrite (select_lock_unique et eid (record_locks d) r Hu Hin Hk).
    split; [|split; [|split]].
    + intros Hown. apply N.eqb_eq in Hown. rewrite Hown. simpl.
      split; [reflexivity|]. split.
      * unfold update_extend. apply length_map.
      * unfold update_extend.
        apply (update_by_id_in
                 (fun y => mkLock (id y) (entity_type y) (entity_id y)
                                  (locked_by y) (locked_by_name y) (Some now) expires)
                 (record_locks d) r Hp Hin).
    + intros name Hname Hother Hexp. apply N.eqb_neq in Hother. rewrite Hother, Hname.
      apply Z.ltb_lt in Hexp. rewrite Hexp. simpl.
      split; [reflexivity|]. split.
      * unfold update_takeover. apply length_map.
      * unfold update_takeover.
        apply (update_by_id_in
                 (fun y => mkLock (id y) (entity_type y) (entity_id y)
                                  u name (Some now) expires)
                 (record_locks d) r Hp Hin).
    + intros Hname Hother Hexp. apply N.eqb_neq in Hother. rewrite Hother, Hname.
      apply Z.ltb_lt in Hexp. rewrite Hexp.
      assert (Hex : existsb (fun x => N.eqb (id x) (id r)) (record_locks d) = true).
      { apply existsb_exists. exists r. split; [assumption|apply N.eqb_refl]. }
      rewrite Hex. split; reflexivity.
    + intros Hother Hlive. apply N.eqb_neq in Hother. rewrite Hother.
      assert (Hnot : (expires_at r <? now) = false) by (apply Z.ltb_ge; lia).
      rewrite Hnot. simpl. split; reflexivity.
Qed.


(** C2, as the code has it: against a row held by another principal A,
    acquire_lock by B answers denied exactly when expires_at >= now,
    whoever B is, and leaves the store as it is; at the instant
    expires_at = now the answer is still denied.  For a B who has a
    profiles row it answers took_over exactly when expires_at < now,
    and one of the two always.  For a B without a profiles row and
    expires_at < now it raises a not-null violation, takes nothing
    over and leaves the store as it is. *)
Theorem takeover_only_after_expiry (d : db) (a b : uuid)
  (now : timestamptz) (et : text) (eid : uuid) (dur : Z) (r : record_lock) :
  well_formed d ->
  In r (record_locks d) ->
  same_entity et eid r = true ->
  locked_by r = a ->
  a <> b ->
  let result := fst (acquire_lock (Some b) now et eid dur d) in
  let d' := snd (acquire_lock (Some b) now et eid dur d) in
  (is_denied result = true <-> now <= expires_at r)
  /\ (expires_at r = now -> is_denied result = true)
  /\ (is_denied result = true -> d' = d)
  /\ (forall name,
        select_full_name b (profiles d) = Some name ->
        (is_took_over result = true <-> expires_at r < now)
        /\ (is_denied result = true \/ is_took_over result = true))
  /\ (select_full_name b (profiles d) = None ->
      (result = Raised not_null_violation <-> expires_at r < now)
      /\ is_took_over result = false
      /\ d' = d).
Proof.
  intros [Hu _] Hin Hk Ha Hab result d'. subst result d'.
  unfold acquire_lock, acquire_select, acquire_branch. simpl.
  rewrite (select_lock_unique et eid (record_locks d) r Hu Hin Hk).
  assert (Hne : N.eqb (locked_by r) b = false) by (apply N.eqb_neq; congruence).
  assert (Hex : existsb (fun x => N.eqb (id x) (id r)) (record_locks d) = true).
  { apply existsb_exists. exists r. split; [assumption|apply N.eqb_refl]. }
  rewrite Hne, Hex.
  destruct (expires_at r <? now) eqn:E.
  - apply Z.ltb_lt in E.
    split; [|split; [|split; [|split]]].
    + destruct (select_full_name b (profiles d)); simpl;
        (split; [discriminate|lia]).
    + lia.
    + destruct (select_full_name b (profiles d)); simpl; discriminate.
    + intros name ->. simpl. split; [tauto|now right].
    + intros ->. simpl. repeat split; auto.
  - apply Z.ltb_ge in E. simpl.
    split; [|split; [|split; [|split]]].
    + split; [intros _; lia|reflexivity].
    + reflexivity.
    + reflexivity.
    + intros name _. split; [split; [discriminate|lia]|now left].
    + intros _. split; [split; [discriminate|lia]|split; reflexivity].
Qed.

Lemma filter_idempotent {A : Type} (p : A -> bool) (l : list A) :
  filter p (filter p l) = filter p l.
Proof.
  induction l as [|a l IH]; simpl; [reflexivity|].
  destruct (p a) eqn:E; simpl; [|assumption].
  rewrite E. now f_equal.
Qed.

(** C4: release_lock deletes exactly the rows of the identity held by
    the caller, returns true exactly when there was one, leaves the
    store as it is and returns false otherwise, and returns false when
    called again. *)
Theorem release_lock_owner_only (d : db) (u : uuid) (et : text) (eid : uuid) :
  let deleted := fst (release_lock (Some u) et eid d) in
  let d' := snd (release_lock (Some u) et eid d) in
  (deleted = true <->
   exists r, In r (record_locks d) /\ same_entity et eid r = true /\ locked_by r = u)
  /\ (forall r, In r (record_locks d') <->
                In r (record_locks d)
                /\ ~ (same_entity et eid r = true /\ locked_by r = u))
  /\ (deleted = true <->
      (List.length (record_locks d') < List.length (record_locks d))%nat)
  /\ (deleted = false -> d' = d)
  /\ release_lock (Some u) et eid d' = (false, d')
  /\ release_lock None et eid d = (false, d).
Proof.
  intros deleted d'. subst deleted d'. simpl.
  assert (Hown : forall r, owned_by et eid u r = true <->
                           same_entity et eid r = true /\ locked_by r = u).
  { intros r. unfold owned_by. now rewrite andb_true_iff, N.eqb_eq. }
  assert (Hlen : forall rows : list record_lock,
             (List.length (filter (fun r => negb (owned_by et eid u r)) rows)
              <= List.length rows)%nat
             /\ (existsb (owned_by et eid u) rows = true <->
                 (List.length (filter (fun r => negb (owned_by et eid u r)) rows)
                  < List.length rows)%nat)
             /\ (existsb (owned_by et eid u) rows = false ->
                 filter (fun r => negb (owned_by et eid u r)) rows = rows)).
  { induction rows as [|a rows [IH1 [IH2 IH3]]]; simpl.
    - repeat split; intros; try lia; try discriminate; reflexivity.
    - destruct (owned_by et eid u a); simpl.
      + repeat split; intros; try lia; discriminate.
      + split; [lia|]. split; [split|].
        * intros H. apply IH2 in H. lia.
        * intros H. apply IH2. lia.
        * intros H. now rewrite IH3. }
  split; [|split; [|split; [|split; [|split]]]].
  - rewrite existsb_exists. split.
    + intros [r [Hin Hr]]. exists r. apply Hown in Hr. tauto.
    + intros [r [Hin Hr]]. exists r. split; [assumption|]. now apply Hown.
  - intros r. rewrite filter_In, negb_true_iff, <- Hown.
    destruct (owned_by et eid u r); split; intros [H1 H2]; split;
      try assumption; try reflexivity; try discriminate.
    exfalso. now apply H2.
  - apply (Hlen (record_locks d)).
  - intros H. destruct (Hlen (record_locks d)) as [_ [_ H3]].
    rewrite (H3 H). apply set_locks_same.
  - f_equal.
    + destruct (existsb (owned_by et eid u)
                  (filter (fun r => negb (owned_by et eid u r)) (record_locks d))) eqn:E;
        [|reflexivity].
      apply existsb_exists in E. destruct E as [r [Hin Hr]].
      apply filter_In in Hin. destruct Hin as [_ Hn].
      rewrite Hr in Hn. discriminate.
    + unfold set_locks. simpl. f_equal. apply filter_idempotent.
  - reflexivity.
Qed.

(** ** Presence *)

Lemma viewing_true (u : uuid) (now : timestamptz) (et : text) (eid : uuid)
  (up : Presence.user_presence) :
  is_true (Presence.viewing (Some u) now et eid up) = true <->
  Presence.entity_type up = Some et
  /\ Presence.entity_id up = Some eid
  /\ (exists t, Presence.last_seen up = Some t /\ now - minutes 2 < t)
  /\ Presence.user_id up <> u.
Proof.
  unfold Presence.viewing, sql_neq, sql_eq, Presence.sql_gt.
  destruct (Presence.entity_type up) as [t0|], (Presence.entity_id up) as [e0|],
    (Presence.last_seen up) as [s0|]; simpl.
  - destruct (String.eqb_spec t0 et) as [Et|Et], (N.eqb_spec e0 eid) as [Ee|Ee],
      (Z.ltb_spec (now - minutes 2) s0) as [Es|Es],
      (N.eqb_spec (Presence.user_id up) u) as [Eu|Eu]; simpl;
      (split;
       [ first
           [ discriminate
           | intros _; subst;
             split; [reflexivity|
             split; [reflexivity|
             split; [exists s0; split; [reflexivity|assumption]|assumption]]] ]
       | intros [H1 [H2 [[t [H3 H4]] H5]]];
         inversion H1; inversion H2; inversion H3; subst;
         try reflexivity; try contradiction; try lia ]).
  - split; [|intros [_ [_ [[t [H _]] _]]]; discriminate].
    destruct (String.eqb t0 et), (N.eqb e0 eid), (N.eqb (Presence.user_id up) u);
      discriminate.
  - split; [|intros [_ [H _]]; discriminate].
    destruct (String.eqb t0 et), (now - minutes 2 <? s0), (N.eqb (Presence.user_id up) u);
      discriminate.
  - split; [|intros [_ [H _]]; discriminate].
    destruct (String.eqb t0 et), (N.eqb (Presence.user_id up) u); discriminate.
  - split; [|intros [H _]; discriminate].
    destruct (N.eqb e0 eid), (now - minutes 2 <? s0), (N.eqb (Presence.user_id up) u);
      discriminate.
  - split; [|intros [H _]; discriminate].
    destruct (N.eqb e0 eid), (N.eqb (Presence.user_id up) u); discriminate.
  - split; [|intros [H _]; discriminate].
    destruct (now - minutes 2 <? s0), (N.eqb (Presence.user_id up) u); discriminate.
  - split; [|intros [H _]; discriminate].
    destruct (N.eqb (Presence.user_id up) u); discriminate.
Qed.

(** For an anonymous caller [auth.uid()] is NULL, the last conjunct of
    the WHERE clause is NULL for every row and nothing is returned. *)
Lemma get_viewers_anonymous (rows : list Presence.user_presence)
  (now : timestamptz) (et : text) (eid : uuid) :
  Presence.get_viewers None now et eid rows = [].
Proof.
  unfold Presence.get_viewers.
  induction rows as [|up rows IH]; simpl; [reflexivity|].
  assert (E : is_true (Presence.viewing None now et eid up) = false).
  { unfold Presence.viewing.
    generalize (sql_and
                  (sql_and (sql_eq String.eqb (Presence.entity_type up) (Some et))
                           (sql_eq N.eqb (Presence.entity_id up) (Some eid)))
                  (Presence.sql_gt (Presence.last_seen up) (Some (now - minutes 2)))).
    intros [[|]|]; reflexivity. }
  now rewrite E.
Qed.


(** ** The version guard *)

Section VersionGuardFacts.

Import VersionGuard.

Variable payload : Type.

Lemma update_rows_no_match (R : rules payload) (table : list (entity payload))
  (cond : entity payload -> bool) (c : changes payload) (rows : list (entity payload)) :
  (forall x, In x rows -> selected R cond x = false) ->
  update_rows R table cond c rows = Returned (rows, []).
Proof.
  induction rows as [|a rows IH]; cbn [update_rows]; intros H; [reflexivity|].
  rewrite IH by (intros x Hx; apply H; now right).
  now rewrite (H a (or_introl eq_refl)).
Qed.

Lemma replace_other_ids (i : uuid) (r' : entity payload) (rows : list (entity payload)) :
  ~ In i (map id rows) ->
  map (fun x => if N.eqb (id x) i then r' else x) rows = rows.
Proof.
  induction rows as [|a rows IH]; simpl; intros H; [reflexivity|].
  destruct (N.eqb_spec (id a) i) as [E|E]; [exfalso; apply H; now left|].
  f_equal. apply IH. tauto.
Qed.

(** An UPDATE that can only work on the row [r]. *)
Lemma update_rows_target (R : rules payload) (table : list (entity payload))
  (cond : entity payload -> bool) (c : changes payload)
  (rows : list (entity payload)) (r : entity payload) :
  NoDup (map id rows) -> In r rows -> selected R cond r = true ->
  (forall x, In x rows -> selected R cond x = true -> id x = id r) ->
  update_rows R table cond c rows =
  match new_row R table c r with
  | Returned r' =>
      Returned (map (fun x => if N.eqb (id x) (id r) then r' else x) rows, [r'])
  | Raised e => Raised e
  end.
Proof.
  induction rows as [|a rows IH]; cbn [update_rows map];
    intros Hnd Hin Hc Honly; [contradiction|].
  inversion Hnd as [|? ? Hnotin Hnd']; subst.
  destruct Hin as [->|Hin].
  - assert (Hrest : forall x, In x rows -> selected R cond x = false).
    { intros x Hx. destruct (selected R cond x) eqn:E; [|reflexivity].
      exfalso. apply Hnotin. rewrite <- (Honly x (or_intror Hx) E). now apply in_map. }
    rewrite (update_rows_no_match R table cond c rows Hrest), Hc, N.eqb_refl.
    destruct (new_row R table c r) as [r'|e]; [|reflexivity].
    now rewrite (replace_other_ids (id r) r' rows Hnotin).
  - assert (Ha : selected R cond a = false).
    { destruct (selected R cond a) eqn:E; [|reflexivity].
      exfalso. apply Hnotin. rewrite (Honly a (or_introl eq_refl) E). now apply in_map. }
    assert (Hida : N.eqb (id a) (id r) = false).
    { apply N.eqb_neq. intros E. apply Hnotin. rewrite E. now apply in_map. }
    rewrite (IH Hnd' Hin Hc (fun x Hx => Honly x (or_intror Hx))), Ha, Hida.
    destruct (new_row R table c r) as [r'|e]; reflexivity.
Qed.

(** The triggers, the policy check and the constraints on a row stored
    at version [v]. *)
Lemma new_row_versioned (R : rules payload) (table : list (entity payload))
  (c : changes payload) (r : entity payload) (v : Z) :
  version r = Some v ->
  new_row R table c r =
  if v + 1 <=? int4_max then
    if new_row_allowed R (saved_row R c r v) then
      match violated R table (saved_row R c r v) with
      | Some e => Raised e
      | None => Returned (saved_row R c r v)
      end
    else Raised insufficient_privilege
  else Raised numeric_value_out_of_range.
Proof.
  intros Hv. unfold new_row, increment_version. rewrite Hv.
  destruct (v + 1 <=? int4_max); reflexivity.
Qed.

Lemma entity_by_id (rows : list (entity payload)) (a b : entity payload) :
  NoDup (map id rows) -> In a rows -> In b rows -> id a = id b -> a = b.
Proof.
  induction rows as [|c rows IH]; simpl; intros Hnd Ha Hb Hid; [contradiction|].
  inversion Hnd as [|? ? Hnotin Hnd']; subst.
  destruct Ha as [->|Ha], Hb as [->|Hb].
  - reflexivity.
  - exfalso. apply Hnotin. rewrite Hid. now apply in_map.
  - exfalso. apply Hnotin. rewrite <- Hid. now apply in_map.
  - now apply IH.
Qed.

Lemma stored_version_of_row (rows : list (entity payload)) (r : entity payload) :
  NoDup (map id rows) -> In r rows ->
  stored_version (id r) rows = Some (version r).
Proof.
  intros Hnd Hin. unfold stored_version.
  destruct (find (fun x => N.eqb (id x) (id r)) rows) as [x|] eqn:Hf.
  - apply find_some in Hf. destruct Hf as [Hx E]. apply N.eqb_eq in E.
    now rewrite (entity_by_id rows x r Hnd Hx Hin E).
  - pose proof (find_none _ _ Hf r Hin) as E. cbv beta in E.
    rewrite N.eqb_refl in E. discriminate.
Qed.

(** What one call of [updateWithVersionCheck] does to the row with the
    given id, in each of its cases. *)
Lemma updateWithVersionCheck_cases (R : rules payload) (rows : list (entity payload))
  (r : entity payload) (v : Z) (u : changes payload) (expectedVersion : Z) :
  NoDup (map id rows) -> In r rows -> version r = Some v ->
  updateWithVersionCheck R (id r) u expectedVersion rows =
  if Z.eqb v expectedVersion && can_select R r && can_update R r then
    if v + 1 <=? int4_max then
      if new_row_allowed R (saved_row R u r v) then
        match violated R rows (saved_row R u r v) with
        | Some e => (Rejected (Rethrown (PgError e)), rows)
        | None =>
            (Resolved (saved_row R u r v),
             map (fun x => if N.eqb (id x) (id r) then saved_row R u r v else x) rows)
        end
      else (Rejected (Rethrown (PgError insufficient_privilege)), rows)
    else (Rejected (Rethrown (PgError numeric_value_out_of_range)), rows)
  else (Rejected ModifiedByAnotherUser, rows).
Proof.
  intros Hnd Hin Hv. unfold updateWithVersionCheck, sql_update.
  assert (Hsel : selected R (id_and_version (id r) expectedVersion) r
                 = Z.eqb v expectedVersion && can_select R r && can_update R r).
  { unfold selected, id_and_version. rewrite N.eqb_refl, Hv. cbn.
    now destruct (v =? expectedVersion). }
  destruct (Z.eqb v expectedVersion && can_select R r && can_update R r) eqn:G.
  - rewrite (update_rows_target R rows _ u rows r Hnd Hin Hsel).
    + rewrite (new_row_versioned R rows u r v Hv).
      destruct (v + 1 <=? int4_max); [|reflexivity].
      destruct (new_row_allowed R (saved_row R u r v)); [|reflexivity].
      destruct (violated R rows (saved_row R u r v)); reflexivity.
    + intros x _ Hx. unfold selected, id_and_version in Hx.
      apply andb_true_iff in Hx. destruct Hx as [Hx _].
      apply andb_true_iff in Hx. destruct Hx as [Hx _].
      apply andb_true_iff in Hx. destruct Hx as [Hx _]. now apply N.eqb_eq.
  - rewrite update_rows_no_match; [reflexivity|].
    intros x Hx.
    destruct (N.eqb_spec (id x) (id r)) as [Ei|Ei].
    + now rewrite (entity_by_id rows x r Hnd Hx Hin Ei).
    + unfold selected, id_and_version.
      apply N.eqb_neq in Ei. now rewrite Ei.
Qed.

Lemma replace_keeps_ids (r r' : entity payload) (rows : list (entity payload)) :
  id r' = id r ->
  map id (map (fun x => if N.eqb (id x) (id r) then r' else x) rows) = map id rows.
Proof.
  intros E. rewrite map_map. apply map_ext. intros x.
  destruct (N.eqb_spec (id x) (id r)) as [Ei|Ei]; congruence.
Qed.

(** The table keeps its primary key and the row keeps its id; its
    version moves by one exactly when the promise resolved. *)
Lemma updateWithVersionCheck_step (R : rules payload) (rows : list (entity payload))
  (r : entity payload) (v : Z) (u : changes payload) (expectedVersion : Z) :
  NoDup (map id rows) -> In r rows -> version r = Some v ->
  let p := fst (updateWithVersionCheck R (id r) u expectedVersion rows) in
  let rows' := snd (updateWithVersionCheck R (id r) u expectedVersion rows) in
  NoDup (map id rows')
  /\ exists r', In r' rows' /\ id r' = id r
                /\ version r' = Some (v + (if resolved p then 1 else 0)).
Proof.
  intros Hnd Hin Hv p rows'. subst p rows'.
  rewrite (updateWithVersionCheck_cases R rows r v u expectedVersion Hnd Hin Hv).
  assert (Hsame : NoDup (map id rows)
                  /\ exists r', In r' rows /\ id r' = id r /\ version r' = Some (v + 0)).
  { split; [assumption|]. exists r. rewrite Z.add_0_r. tauto. }
  destruct (Z.eqb v expectedVersion && can_select R r && can_update R r);
    [|exact Hsame].
  destruct (v + 1 <=? int4_max); [|exact Hsame].
  destruct (new_row_allowed R (saved_row R u r v)); [|exact Hsame].
  destruct (violated R rows (saved_row R u r v)); [exact Hsame|].
  cbn [fst snd resolved]. split.
  - now rewrite replace_keeps_ids.
  - exists (saved_row R u r v).
    split; [|split; reflexivity].
    apply in_map_iff. exists r. now rewrite N.eqb_refl.
Qed.

Lemma submit_all_versions (reqs : list (rules payload * changes payload * Z)) :
  forall (rows : list (entity payload)) (r : entity payload) (v : Z),
    NoDup (map id rows) -> In r rows -> version r = Some v ->
    stored_version (id r) (snd (submit_all (id r) reqs rows)) =
    Some (Some (v + Z.of_nat (List.length
                                (filter resolved (fst (submit_all (id r) reqs rows)))))).
Proof.
  induction reqs as [|[[R u] e] reqs IH]; intros rows r v Hnd Hin Hv; simpl.
  - rewrite Z.add_0_r, <- Hv. now apply stored_version_of_row.
  - pose proof (updateWithVersionCheck_step R rows r v u e Hnd Hin Hv) as Hstep.
    destruct (updateWithVersionCheck R (id r) u e rows) as [p rows'] eqn:Hup.
    simpl in Hstep. destruct Hstep as [Hnd' [r' [Hin' [Hid' Hv']]]].
    specialize (IH rows' r' _ Hnd' Hin' Hv'). rewrite Hid' in IH.
    destruct (submit_all (id r) reqs rows') as [ps rows''] eqn:Hsub.
    simpl in *. rewrite IH. do 2 f_equal.
    destruct (resolved p); simpl; lia.
Qed.

End VersionGuardFacts.


(** C6: the update path the hooks expose for companies sends no
    version: a caller who read version 3 and may update companies
    overwrites the row stored at version 4, where
    updateWithVersionCheck with the same stale version rejects. *)
Theorem useUpdateCompany_sends_no_version :
  VersionGuard.stored_version 1%N Sample.companies = Some (Some 4)
  /\ VersionGuard.updateWithVersionCheck (Sample.names_only Sample.salesperson)
       1%N (Sample.rename "Stale edit") 3 Sample.companies
     = (VersionGuard.Rejected VersionGuard.ModifiedByAnotherUser, Sample.companies)
  /\ VersionGuard.useUpdateCompany (Sample.names_only Sample.salesperson)
       1%N (Sample.rename "Stale edit") Sample.companies
     = (VersionGuard.Resolved (VersionGuard.mkEntity 1%N (Some 5) "Stale edit"%string),
        [VersionGuard.mkEntity 1%N (Some 5) "Stale edit"%string;
         VersionGuard.mkEntity 2%N (Some 1) "Beta Metrology"%string]).
Proof.
  split; [reflexivity|]. split; reflexivity.
Qed.

(** ** The client *)

(** C9: one periodic extension whose RPC fails with an error, not a
    denial, ends the edit session: the callback marks the lock as held
    by someone else, leaves editing, drops the edit data and shows the
    interruption alert, exactly as it does for a denied answer. *)
Theorem failed_extension_ends_editing (T : Type) (draft : T)
  (shown : list string) (expires : option timestamptz) (message : string) :
  let session :=
    Client.mkHook (Some (Client.mkLockInfo true (Some true) None None None expires))
                  true (Some draft) shown in
  let after := Client.extend_tick (Client.RpcError message) session in
  Client.r_success (Client.acquireLock (Client.RpcError message)) = false
  /\ Client.isEditing after = false
  /\ Client.editData after = None
  /\ Client.isLockedByMe after = false
  /\ Client.alerts after =
     shown ++ ["Your editing session was interrupted. Another user is now editing this record."%string]
  /\ forall by_id by_name at_time until,
       let denied := Client.extend_tick
                       (Client.RpcData (Denied by_id by_name at_time until)) session in
       Client.isEditing denied = Client.isEditing after
       /\ Client.editData denied = Client.editData after
       /\ Client.alerts denied = Client.alerts after.
Proof.
  simpl. repeat split; reflexivity.
Qed.

(** ** Racing calls *)

Lemma acquire_lock_two_statements (u : uuid) (now : timestamptz)
  (et : text) (eid : uuid) (dur : Z) (d : db) :
  Race.run et eid dur [0%nat; 0%nat] (Race.mkSystem d [Race.Pending u now])
  = Race.mkSystem (snd (acquire_lock (Some u) now et eid dur d))
                  [Race.Finished (fst (acquire_lock (Some u) now et eid dur d))].
Proof.
  unfold Race.run, Race.step, acquire_lock. simpl.
  destruct (acquire_branch (acquire_select u et eid d) now et eid dur d) as [r d'].
  reflexivity.
Qed.

Lemma race_step_well_formed (et : text) (eid : uuid) (dur : Z)
  (s : Race.system) (i : nat) :
  well_formed (Race.store s) -> well_formed (Race.store (Race.step et eid dur s i)).
Proof.
  intros Hwf. unfold Race.step.
  destruct (nth_error (Race.calls s) i) as [c|]; [|assumption].
  destruct c as [u now|now l|r]; simpl; try assumption.
  pose proof (acquire_branch_well_formed l now et eid dur (Race.store s) Hwf) as H.
  now destruct (acquire_branch l now et eid dur (Race.store s)).
Qed.

(** The UNIQUE constraint survives every schedule. *)
Lemma race_run_well_formed (et : text) (eid : uuid) (dur : Z) (schedule : list nat) :
  forall s, well_formed (Race.store s) ->
            well_formed (Race.store (Race.run et eid dur schedule s)).
Proof.
  unfold Race.run.
  induction schedule as [|i schedule IH]; intros s Hwf; simpl; [assumption|].
  apply IH. now apply race_step_well_formed.
Qed.

(** C7: acquire_lock is not one indivisible step.  When Bob's and
    Carol's calls both run their SELECT before either writes, both take
    over Alice's expired lock and both are told they succeeded, while
    the row ends up Carol's; with no prior lock, one call answers
    created and the other raises a unique violation instead of
    answering denied.  Run one after the other, the second call is
    denied. *)
Theorem racing_acquires_not_atomic :
  let late := minutes 20 in
  let race := Race.run "job"%string 7%N 15 Sample.both_select_first in
  let serial := Race.run "job"%string 7%N 15 Sample.one_after_the_other in
  Race.calls (race (Sample.bob_and_carol late Sample.alice_editing))
  = [Race.Finished (Returned (TookOver 10%N (minutes 35)));
     Race.Finished (Returned (TookOver 10%N (minutes 35)))]
  /\ record_locks (Race.store (race (Sample.bob_and_carol late Sample.alice_editing)))
     = [mkLock 10%N "job"%string 7%N Sample.carol "Carol"%string (Some late) (minutes 35)]
  /\ Race.calls (race (Sample.bob_and_carol late Sample.no_locks))
     = [Race.Finished (Returned (Created 1%N (minutes 35)));
        Race.Finished (Raised unique_violation)]
  /\ Race.calls (serial (Sample.bob_and_carol late Sample.no_locks))
     = [Race.Finished (Returned (Created 1%N (minutes 35)));
        Race.Finished (Returned (Denied Sample.bob "Bob"%string (Some late) (minutes 35)))]
  /\ Race.calls (serial (Sample.bob_and_carol late Sample.alice_editing))
     = [Race.Finished (Returned (TookOver 10%N (minutes 35)));
        Race.Finished (Returned (Denied Sample.bob "Bob"%string (Some late) (minutes 35)))].
Proof.
  repeat split; vm_compute; reflexivity.
Qed.

(** ** The properties at concrete stores *)

Local Open Scope string_scope.

Lemma alice_editing_well_formed : well_formed Sample.alice_editing.
Proof.
  split; (constructor; [simpl; tauto|constructor]).
Defined.

Lemma no_locks_well_formed : well_formed Sample.no_locks.
Proof.
  split; constructor.
Defined.

(** C1 as stated fails: a signed-in user whose profiles row is missing
    gets neither created on an identity without a row nor took_over on
    another holder's expired row; both calls raise and write nothing. *)
Lemma acquire_without_profile_counterexample :
  select_full_name Sample.stranger (profiles Sample.no_locks) = None
  /\ acquire_lock (Some Sample.stranger) 0 "job" 7%N 15 Sample.no_locks
     = (Raised not_null_violation, Sample.no_locks)
  /\ expires_at Sample.alice_row < minutes 20
  /\ acquire_lock (Some Sample.stranger) (minutes 20) "job" 7%N 15 Sample.alice_editing
     = (Raised not_null_violation, Sample.alice_editing).
Proof.
  repeat split; reflexivity.
Qed.

(** Alice opens job 7 on an empty table; on that row, Bob is denied
    five minutes in and takes over after twenty, Alice extends, and a
    user without a profiles row raises. *)
Lemma acquire_lock_outcomes_witness :
  well_formed Sample.no_locks
  /\ well_formed Sample.alice_editing
  /\ 0 < 15
  /\ (exists new_id,
        fst (acquire_lock (Some Sample.alice) 0 "job" 7%N 15 Sample.no_locks)
        = Returned (Created new_id (0 + minutes 15))
        /\ ~ In new_id (map id (record_locks Sample.no_locks))
        /\ record_locks
             (snd (acquire_lock (Some Sample.alice) 0 "job" 7%N 15 Sample.no_locks))
           = (record_locks Sample.no_locks
              ++ [mkLock new_id "job" 7%N Sample.alice "Alice" (Some 0)
                         (0 + minutes 15)])%list)
  /\ fst (acquire_lock (Some Sample.alice) (minutes 5) "job" 7%N 15
                       Sample.alice_editing)
     = Returned (Extended 10%N (minutes 5 + minutes 15))
  /\ fst (acquire_lock (Some Sample.bob) (minutes 20) "job" 7%N 15
                       Sample.alice_editing)
     = Returned (TookOver 10%N (minutes 20 + minutes 15))
  /\ fst (acquire_lock (Some Sample.bob) (minutes 5) "job" 7%N 15 Sample.alice_editing)
     = Returned (Denied Sample.alice "Alice" (Some 0) (minutes 15))
  /\ snd (acquire_lock (Some Sample.bob) (minutes 5) "job" 7%N 15 Sample.alice_editing)
     = Sample.alice_editing
  /\ acquire_lock (Some Sample.stranger) (minutes 20) "job" 7%N 15 Sample.alice_editing
     = (Raised not_null_violation, Sample.alice_editing).
Proof.
  split; [exact no_locks_well_formed|].
  split; [exact alice_editing_well_formed|].
  split; [reflexivity|].
  split; [|split; [|split; [|split; [|split]]]].
  - destruct (acquire_lock_outcomes Sample.no_locks Sample.alice 0
                "job" 7%N 15 no_locks_well_formed eq_refl)
      as [_ [_ [Hcreated _]]].
    apply (Hcreated "Alice" eq_refl). intros r [].
  - destruct (acquire_lock_outcomes Sample.alice_editing Sample.alice (minutes 5)
                "job" 7%N 15 alice_editing_well_formed eq_refl)
      as [_ [_ [_ [_ Hrow]]]].
    destruct (Hrow Sample.alice_row (or_introl eq_refl) eq_refl) as [Hext _].
    apply (Hext eq_refl).
  - destruct (acquire_lock_outcomes Sample.alice_editing Sample.bob (minutes 20)
                "job" 7%N 15 alice_editing_well_formed eq_refl)
      as [_ [_ [_ [_ Hrow]]]].
    destruct (Hrow Sample.alice_row (or_introl eq_refl) eq_refl) as [_ [Htook _]].
    assert (Hother : locked_by Sample.alice_row <> Sample.bob) by discriminate.
    assert (Hexp : expires_at Sample.alice_row < minutes 20) by reflexivity.
    destruct (Htook "Bob" eq_refl Hother Hexp) as [Hres _]. exact Hres.
  - destruct (acquire_lock_outcomes Sample.alice_editing Sample.bob (minutes 5)
                "job" 7%N 15 alice_editing_well_formed eq_refl)
      as [_ [_ [_ [_ Hrow]]]].
    destruct (Hrow Sample.alice_row (or_introl eq_refl) eq_refl)
      as [_ [_ [_ Hdenied]]].
    assert (Hother : locked_by Sample.alice_row <> Sample.bob) by discriminate.
    assert (Hlive : minutes 5 <= expires_at Sample.alice_row)
      by (vm_compute; discriminate).
    destruct (Hdenied Hother Hlive) as [Hres _]. exact Hres.
  - destruct (acquire_lock_outcomes Sample.alice_editing Sample.bob (minutes 5)
                "job" 7%N 15 alice_editing_well_formed eq_refl)
      as [_ [_ [_ [_ Hrow]]]].
    destruct (Hrow Sample.alice_row (or_introl eq_refl) eq_refl)
      as [_ [_ [_ Hdenied]]].
    assert (Hbob : locked_by Sample.alice_row <> Sample.bob) by discriminate.
    assert (Hlive : minutes 5 <= expires_at Sample.alice_row)
      by (vm_compute; discriminate).
    destruct (Hdenied Hbob Hlive) as [_ Hsame]. exact Hsame.
  - destruct (acquire_lock_outcomes Sample.alice_editing Sample.stranger (minutes 20)
                "job" 7%N 15 alice_editing_well_formed eq_refl)
      as [_ [_ [_ [_ Hrow]]]].
    destruct (Hrow Sample.alice_row (or_introl eq_refl) eq_refl)
      as [_ [_ [Hraise _]]].
    assert (Hother : locked_by Sample.alice_row <> Sample.stranger) by discriminate.
    assert (Hexp : expires_at Sample.alice_row < minutes 20) by reflexivity.
    destruct (Hraise eq_refl Hother Hexp) as [H1 H2].
    rewrite (surjective_pairing
               (acquire_lock (Some Sample.stranger) (minutes 20) "job" 7%N 15
                             Sample.alice_editing)).
    now rewrite H1, H2.
Defined.


(** C2 as stated fails: at the instant expires_at = now Bob is still
    denied Alice's lock and does not take it over. *)
Lemma takeover_at_expiry_instant_counterexample :
  expires_at Sample.alice_row = minutes 15
  /\ locked_by Sample.alice_row <> Sample.bob
  /\ is_took_over
       (fst (acquire_lock (Some Sample.bob) (minutes 15) "job" 7%N 15
                          Sample.alice_editing)) = false
  /\ fst (acquire_lock (Some Sample.bob) (minutes 15) "job" 7%N 15 Sample.alice_editing)
     = Returned (Denied Sample.alice "Alice" (Some 0) (minutes 15)).
Proof.
  split; [reflexivity|]. split; [discriminate|]. split; reflexivity.
Qed.

Lemma takeover_only_after_expiry_witness :
  Sample.alice <> Sample.bob
  /\ Sample.alice <> Sample.stranger
  /\ (is_took_over
        (fst (acquire_lock (Some Sample.bob) (minutes 15 + 1) "job" 7%N 15
                           Sample.alice_editing)) = true
      <-> expires_at Sample.alice_row < minutes 15 + 1)
  /\ is_denied
       (fst (acquire_lock (Some Sample.bob) (minutes 15) "job" 7%N 15
                          Sample.alice_editing)) = true
  /\ (fst (acquire_lock (Some Sample.stranger) (minutes 15 + 1) "job" 7%N 15
                        Sample.alice_editing) = Raised not_null_violation
      <-> expires_at Sample.alice_row < minutes 15 + 1).
Proof.
  split; [discriminate|]. split; [discriminate|]. split; [|split].
  - destruct (takeover_only_after_expiry Sample.alice_editing Sample.alice Sample.bob
                (minutes 15 + 1) "job" 7%N 15 Sample.alice_row
                alice_editing_well_formed (or_introl eq_refl) eq_refl eq_refl)
      as [_ [_ [_ [Hknown _]]]]; [discriminate|].
    exact (proj1 (Hknown "Bob" eq_refl)).
  - destruct (takeover_only_after_expiry Sample.alice_editing Sample.alice Sample.bob
                (minutes 15) "job" 7%N 15 Sample.alice_row
                alice_editing_well_formed (or_introl eq_refl) eq_refl eq_refl)
      as [_ [Hedge _]]; [discriminate|].
    exact (Hedge eq_refl).
  - destruct (takeover_only_after_expiry Sample.alice_editing Sample.alice
                Sample.stranger (minutes 15 + 1) "job" 7%N 15 Sample.alice_row
                alice_editing_well_formed (or_introl eq_refl) eq_refl eq_refl)
      as [_ [_ [_ [_ Hunknown]]]]; [discriminate|].
    exact (proj1 (Hunknown eq_refl)).
Defined.

(** The store after Alice's first acquire on an empty table. *)
Lemma one_lock_per_identity_witness :
  reachable Sample.people
    (perform (Acquire (Some Sample.alice) 0 "job" 7%N 15) Sample.no_locks)
  /\ (List.length
        (rows_for "job" 7%N
           (perform (Acquire (Some Sample.alice) 0%Z "job" 7%N 15%Z) Sample.no_locks))
      <= 1)%nat.
Proof.
  assert (Hr : reachable Sample.people
                 (perform (Acquire (Some Sample.alice) 0 "job" 7%N 15) Sample.no_locks)).
  { apply reach_perform. apply reach_empty. }
  split; [exact Hr|].
  apply (one_lock_per_identity Sample.people _ Hr).
Defined.


Lemma registry_primary_key : NoDup (map VersionGuard.id Sample.registry).
Proof.
  constructor; [simpl; intros [H|[]]; discriminate|].
  constructor; [simpl; tauto|constructor].
Qed.


(** A versioned update by a client user of company 2 on that
    company: the SELECT policy shows the row, the UPDATE policy does
    not admit it, and the answer is the conflict error. *)
Example client_user_cannot_save :
  Service.checkVersion (Sample.registry_rules Sample.client_of_beta 900) 2%N 1
                       Sample.registry = true
  /\ VersionGuard.updateWithVersionCheck
       (Sample.registry_rules Sample.client_of_beta 900) 2%N
       (Sample.retitle "Beta") 1 Sample.registry
     = (VersionGuard.Rejected VersionGuard.ModifiedByAnotherUser, Sample.registry).
Proof. split; reflexivity. Qed.

(** Alice opens job 7: Bob, seen 30 seconds ago, is listed; Carol's
    row, three minutes old, is still in the table and is not. *)
Example get_viewers_drops_stale_row :
  Presence.get_viewers (Some Sample.alice) (minutes 60) "job" 7%N
                       (Sample.onlookers (minutes 60))
  = [Presence.mkViewer Sample.bob "Bob" (Some "online") (Some (minutes 60 - 30000000))].
Proof. reflexivity. Qed.

(** One failed fetch during the periodic extension of a held lock. *)
Example failed_fetch_ends_sample_session :
  Client.extend_tick (Client.RpcError "Failed to fetch") Sample.editing_session
  = Client.mkHook
      (Some (Client.mkLockInfo true (Some false) None None None None))
      false None
      ["Your editing session was interrupted. Another user is now editing this record."].
Proof. reflexivity. Qed.

(** Releasing twice: the holder's first release deletes the row, the
    second finds nothing. *)
Example release_twice :
  release_lock (Some Sample.alice) "job" 7%N Sample.alice_editing
  = (true, Sample.no_locks)
  /\ release_lock (Some Sample.alice) "job" 7%N Sample.no_locks
     = (false, Sample.no_locks)
  /\ release_lock (Some Sample.bob) "job" 7%N Sample.alice_editing
     = (false, Sample.alice_editing).
Proof. repeat split; reflexivity. Qed.

(** * Further properties of the lock store *)

Local Close Scope string_scope.

Import Obs.

Lemma find_filter_implied {A : Type} (p q : A -> bool) (l : list A) :
  (forall x, In x l -> p x = true -> q x = true) ->
  find p (filter q l) = find p l.
Proof.
  induction l as [|a l IH]; simpl; intros H; [reflexivity|].
  assert (IH' : find p (filter q l) = find p l).
  { apply IH. intros x Hx. apply H. now right. }
  destruct (q a) eqn:Hq; simpl.
  - now rewrite IH'.
  - destruct (p a) eqn:Hp; [|assumption].
    rewrite (H a (or_introl eq_refl) Hp) in Hq. discriminate.
Qed.

Lemma filter_partition_length {A : Type} (p : A -> bool) (l : list A) :
  (List.length (filter p l) + List.length (filter (fun x => negb (p x)) l)
   = List.length l)%nat.
Proof.
  induction l as [|a l IH]; simpl; [reflexivity|].
  destruct (p a); simpl; lia.
Qed.

Lemma filter_all_true {A : Type} (p : A -> bool) (l : list A) :
  (forall x, In x l -> p x = true) -> filter p l = l.
Proof.
  induction l as [|a l IH]; simpl; intros H; [reflexivity|].
  rewrite (H a (or_introl eq_refl)). f_equal. apply IH. intros x Hx. apply H. now right.
Qed.

Lemma filter_all_false {A : Type} (p : A -> bool) (l : list A) :
  (forall x, In x l -> p x = false) -> filter p l = [].
Proof.
  induction l as [|a l IH]; simpl; intros H; [reflexivity|].
  rewrite (H a (or_introl eq_refl)). apply IH. intros x Hx. apply H. now right.
Qed.

(** A sweep at [now] does not change what check_lock answers at [now]
    or at any later instant: the rows it deletes are rows check_lock
    already ignored. *)
Theorem check_lock_ignores_sweep (auth : option uuid) (now later : timestamptz)
  (et : text) (eid : uuid) (d : db) :
  now <= later ->
  check_lock auth later et eid (snd (cleanup_expired_locks now d))
  = check_lock auth later et eid d.
Proof.
  intros Hle. unfold check_lock, cleanup_expired_locks. simpl.
  rewrite find_filter_implied; [reflexivity|].
  intros x _ Hx. apply andb_true_iff in Hx. destruct Hx as [_ Hlive].
  unfold live in Hlive. apply Z.ltb_lt in Hlive.
  unfold expired. apply negb_true_iff. apply Z.ltb_ge. lia.
Qed.

Lemma cleanup_expired_in (now : timestamptz) (d : db) (r : record_lock) :
  In r (record_locks (snd (cleanup_expired_locks now d)))
  <-> In r (record_locks d) /\ now <= expires_at r.
Proof.
  simpl. rewrite filter_In. unfold expired.
  rewrite negb_true_iff, Z.ltb_ge. tauto.
Qed.

(** cleanup_expired_locks deletes exactly the rows with
    expires_at < now, returns how many it deleted, keeps the order of
    the others, and finds nothing to delete when run again. *)
Theorem cleanup_expired_locks_exact (now : timestamptz) (d : db) :
  let count := fst (cleanup_expired_locks now d) in
  let d' := snd (cleanup_expired_locks now d) in
  (forall r, In r (record_locks d') <-> In r (record_locks d) /\ now <= expires_at r)
  /\ count = Z.of_nat (List.length (record_locks d))
             - Z.of_nat (List.length (record_locks d'))
  /\ profiles d' = profiles d
  /\ cleanup_expired_locks now d' = (0, d').
Proof.
  simpl. split; [|split; [|split]].
  - intros r. apply (cleanup_expired_in now d r).
  - pose proof (filter_partition_length (expired now) (record_locks d)). lia.
  - reflexivity.
  - unfold cleanup_expired_locks. simpl. f_equal.
    + rewrite filter_all_false; [reflexivity|].
      intros x Hx. apply filter_In in Hx. destruct Hx as [_ Hx].
      now apply negb_true_iff.
    + unfold set_locks. simpl. f_equal.
      apply filter_all_true. intros x Hx. apply filter_In in Hx. tauto.
Qed.

Lemma unique_entity_injective (et : text) (eid : uuid)
  (rows : list record_lock) (a b : record_lock) :
  unique_entity rows -> In a rows -> In b rows ->
  same_entity et eid a = true -> same_entity et eid b = true -> a = b.
Proof.
  intros Hu Ha Hb Hka Hkb.
  pose proof (select_lock_unique et eid rows a Hu Ha Hka) as E1.
  pose proof (select_lock_unique et eid rows b Hu Hb Hkb) as E2.
  congruence.
Qed.

Lemma select_lock_some (et : text) (eid : uuid) (rows : list record_lock)
  (r : record_lock) :
  select_lock et eid rows = Some r -> In r rows /\ same_entity et eid r = true.
Proof. intros H. now apply find_some in H. Qed.

Lemma select_lock_none_inv (et : text) (eid : uuid) (rows : list record_lock) :
  select_lock et eid rows = None ->
  forall r, In r rows -> same_entity et eid r = false.
Proof. intros H r Hr. exact (find_none _ _ H r Hr). Qed.

(** A failed call leaves the store as it was. *)
Lemma acquire_failure_unchanged (auth : option uuid) (now : timestamptz)
  (et : text) (eid : uuid) (dur : Z) (d : db) :
  succeeded (fst (acquire_lock auth now et eid dur d)) = false ->
  snd (acquire_lock auth now et eid dur d) = d.
Proof.
  unfold acquire_lock. destruct auth as [u|]; [|reflexivity].
  unfold acquire_select, acquire_branch. simpl.
  destruct (select_lock et eid (record_locks d)) as [ex|].
  - destruct (N.eqb (locked_by ex) u); [discriminate|].
    destruct (expires_at ex <? now); [|reflexivity].
    destruct (select_full_name u (profiles d)); [discriminate|].
    destruct (existsb _ (record_locks d)); [reflexivity|discriminate].
  - destruct (select_full_name u (profiles d)) as [name|]; [|reflexivity].
    destruct (insert_lock et eid u name now (now + minutes dur) (record_locks d))
      as [[i rows']|e]; [discriminate|reflexivity].
Qed.

(** After a successful call the identity's row belongs to the caller
    and runs until now + duration. *)
Lemma acquire_success_row (u : uuid) (now : timestamptz)
  (et : text) (eid : uuid) (dur : Z) (d : db) :
  succeeded (fst (acquire_lock (Some u) now et eid dur d)) = true ->
  exists r', In r' (record_locks (snd (acquire_lock (Some u) now et eid dur d)))
             /\ same_entity et eid r' = true
             /\ locked_by r' = u
             /\ locked_at r' = Some now
             /\ expires_at r' = now + minutes dur.
Proof.
  unfold acquire_lock, acquire_select, acquire_branch. simpl.
  destruct (select_lock et eid (record_locks d)) as [ex|] eqn:Hsel.
  - apply select_lock_some in Hsel. destruct Hsel as [Hin Hk].
    destruct (N.eqb (locked_by ex) u) eqn:Hown.
    + intros _. simpl. apply N.eqb_eq in Hown.
      exists (mkLock (id ex) (entity_type ex) (entity_id ex)
                     (locked_by ex) (locked_by_name ex) (Some now) (now + minutes dur)).
      split; [|now repeat split].
      unfold update_extend. apply in_map_iff. exists ex. now rewrite N.eqb_refl.
    + destruct (expires_at ex <? now); [|discriminate].
      destruct (select_full_name u (profiles d)) as [name|].
      * intros _. simpl.
        exists (mkLock (id ex) (entity_type ex) (entity_id ex)
                       u name (Some now) (now + minutes dur)).
        split; [|now repeat split].
        unfold update_takeover. apply in_map_iff. exists ex. now rewrite N.eqb_refl.
      * assert (E : existsb (fun r => N.eqb (id r) (id ex)) (record_locks d) = true).
        { apply existsb_exists. exists ex. now rewrite N.eqb_refl. }
        rewrite E. discriminate.
  - destruct (select_full_name u (profiles d)) as [name|]; [|discriminate].
    unfold insert_lock.
    destruct (existsb (same_entity et eid) (record_locks d)); [discriminate|].
    intros _. simpl.
    exists (mkLock (uuid_generate (record_locks d)) et eid u name (Some now)
                   (now + minutes dur)).
    split; [apply in_or_app; right; now left|].
    split; [|now repeat split].
    unfold same_entity. simpl. now rewrite String.eqb_refl, N.eqb_refl.
Qed.

Lemma acquire_lock_well_formed (auth : option uuid) (now : timestamptz)
  (et : text) (eid : uuid) (dur : Z) (d : db) :
  well_formed d -> well_formed (snd (acquire_lock auth now et eid dur d)).
Proof. intros H. exact (perform_well_formed (Acquire auth now et eid dur) d H). Qed.


(** acquire_lock does not validate the duration: with a zero or
    negative one a call may still succeed and write its row, but the
    row is expired from the start and check_lock at that instant
    reports the identity as not locked. *)
Theorem acquire_nonpositive_duration (u : uuid) (now : timestamptz)
  (et : text) (eid : uuid) (dur : Z) (d : db) :
  well_formed d ->
  dur <= 0 ->
  succeeded (fst (acquire_lock (Some u) now et eid dur d)) = true ->
  forall auth,
    check_lock auth now et eid (snd (acquire_lock (Some u) now et eid dur d))
    = NotLocked.
Proof.
  intros Hwf Hdur Hok auth.
  destruct (acquire_success_row u now et eid dur d Hok)
    as [r' [Hin [Hk [_ [_ Hexp]]]]].
  pose proof (acquire_lock_well_formed (Some u) now et eid dur d Hwf) as [Hu' _].
  unfold check_lock. rewrite find_all_false; [reflexivity|].
  intros x Hx. destruct (same_entity et eid x) eqn:Hkx; [|reflexivity].
  rewrite (unique_entity_injective et eid _ x r' Hu' Hx Hin Hkx Hk). simpl.
  unfold live. rewrite Hexp. apply Z.ltb_ge. unfold minutes. lia.
Qed.

Lemma release_clears_identity (a : uuid) (et : text) (eid : uuid) (d : db)
  (r : record_lock) :
  well_formed d -> In r (record_locks d) ->
  same_entity et eid r = true -> locked_by r = a ->
  forall x, In x (record_locks (snd (release_lock (Some a) et eid d))) ->
            same_entity et eid x = false.
Proof.
  intros [Hu _] Hin Hk Hby x Hx. simpl in Hx.
  apply filter_In in Hx. destruct Hx as [Hx Hown].
  destruct (same_entity et eid x) eqn:Hkx; [|reflexivity].
  rewrite (unique_entity_injective et eid _ x r Hu Hx Hin Hkx Hk) in Hown.
  unfold owned_by in Hown. rewrite Hk, Hby, N.eqb_refl in Hown. discriminate.
Qed.

(** Release, then acquire: once the holder has released the lock, the
    next acquire_lock on the identity by any caller with a profile
    answers created, at any time and whatever expires_at was. *)
Theorem release_then_acquire_creates (a b : uuid) (name : text)
  (now : timestamptz) (et : text) (eid : uuid) (dur : Z) (d : db) (r : record_lock) :
  well_formed d ->
  In r (record_locks d) ->
  same_entity et eid r = true ->
  locked_by r = a ->
  select_full_name b (profiles d) = Some name ->
  let released := release_lock (Some a) et eid d in
  fst released = true
  /\ exists new_id,
       fst (acquire_lock (Some b) now et eid dur (snd released))
       = Returned (Created new_id (now + minutes dur)).
Proof.
  intros Hwf Hin Hk Hby Hname released. subst released. split.
  - simpl. apply existsb_exists. exists r. split; [assumption|].
    unfold owned_by. now rewrite Hk, Hby, N.eqb_refl.
  - pose proof (release_clears_identity a et eid d r Hwf Hin Hk Hby) as Hfree.
    apply select_lock_none in Hfree. destruct Hfree as [Hsel Hex].
    unfold acquire_lock, acquire_select, acquire_branch.
    rewrite Hsel. simpl. simpl in Hex. rewrite Hname.
    unfold insert_lock. rewrite Hex. eexists. reflexivity.
Qed.

Lemma release_after_create (u : uuid) (name : text)
  (now : timestamptz) (et : text) (eid : uuid) (dur : Z) (d : db) :
  (forall r, In r (record_locks d) -> same_entity et eid r = false) ->
  select_full_name u (profiles d) = Some name ->
  release_lock (Some u) et eid (snd (acquire_lock (Some u) now et eid dur d))
  = (true, d).
Proof.
  intros Hfree Hname.
  pose proof (select_lock_none et eid (record_locks d) Hfree) as [Hsel Hex].
  unfold acquire_lock, acquire_select, acquire_branch.
  rewrite Hsel. simpl. rewrite Hname. unfold insert_lock. rewrite Hex. simpl.
  assert (Hnew : owned_by et eid u
                   (mkLock (uuid_generate (record_locks d)) et eid u name (Some now)
                           (now + minutes dur)) = true).
  { unfold owned_by, same_entity. simpl.
    now rewrite String.eqb_refl, !N.eqb_refl. }
  assert (Hold : forall x, In x (record_locks d) -> owned_by et eid u x = false).
  { intros x Hx. unfold owned_by. now rewrite (Hfree x Hx). }
  f_equal.
  - rewrite existsb_app. simpl. rewrite Hnew. apply orb_true_iff. right. reflexivity.
  - unfold set_locks. simpl. rewrite filter_app. simpl. rewrite Hnew. simpl.
    rewrite app_nil_r.
    rewrite filter_all_true.
    + now destruct d.
    + intros x Hx. now rewrite (Hold x Hx).
Qed.

(** Acquire on a free identity, then release by the same caller: the
    store is exactly what it was before. *)
Theorem acquire_then_release_restores (u : uuid) (name : text)
  (now : timestamptz) (et : text) (eid : uuid) (dur : Z) (d : db) :
  (forall r, In r (record_locks d) -> same_entity et eid r = false) ->
  select_full_name u (profiles d) = Some name ->
  release_lock (Some u) et eid (snd (acquire_lock (Some u) now et eid dur d))
  = (true, d).
Proof. exact (release_after_create u name now et eid dur d). Qed.

Lemma filter_map_other_key {K : Type} (key : record_lock -> K)
  (p : record_lock -> bool) (g : record_lock -> record_lock)
  (c : record_lock -> bool) (rows : list record_lock) :
  (forall x, In x rows -> c x = true -> p x = false /\ p (g x) = false) ->
  filter p (map (fun x => if c x then g x else x) rows) = filter p rows.
Proof.
  induction rows as [|a rows IH]; simpl; intros H; [reflexivity|].
  rewrite IH by (intros x Hx; apply H; now right).
  destruct (c a) eqn:Hc; [|reflexivity].
  destruct (H a (or_introl eq_refl) Hc) as [-> ->]. reflexivity.
Qed.

Lemma same_entity_other (et et' : text) (eid eid' : uuid) (r : record_lock) :
  (et', eid') <> (et, eid) -> same_entity et eid r = true ->
  same_entity et' eid' r = false.
Proof.
  intros Hne Hk. destruct (same_entity et' eid' r) eqn:E; [|reflexivity].
  apply same_entity_key in Hk. apply same_entity_key in E. congruence.
Qed.

(** Calls on one identity never touch another identity's row:
    acquire_lock and release_lock on (entity_type, entity_id) leave the
    rows of every other identity as they were. *)
Theorem other_identities_untouched (auth : option uuid) (now : timestamptz)
  (et et' : text) (eid eid' : uuid) (dur : Z) (d : db) :
  well_formed d ->
  (et', eid') <> (et, eid) ->
  rows_for et' eid' (snd (acquire_lock auth now et eid dur d)) = rows_for et' eid' d
  /\ rows_for et' eid' (snd (release_lock auth et eid d)) = rows_for et' eid' d.
Proof.
  intros [Hu Hp] Hne. split.
  - unfold acquire_lock. destruct auth as [u|]; [|reflexivity].
    unfold acquire_select, acquire_branch, rows_for. simpl.
    destruct (select_lock et eid (record_locks d)) as [ex|] eqn:Hsel.
    + apply select_lock_some in Hsel. destruct Hsel as [Hin Hk].
      assert (Hrow : forall g : record_lock -> record_lock,
                 (forall y, same_entity et' eid' (g y) = same_entity et' eid' y) ->
                 filter (same_entity et' eid')
                        (map (fun x => if N.eqb (id x) (id ex) then g x else x)
                             (record_locks d))
                 = filter (same_entity et' eid') (record_locks d)).
      { intros g Hg. apply (filter_map_other_key lock_key).
        intros x Hx Hc. apply N.eqb_eq in Hc.
        rewrite (primary_key_injective _ x ex Hp Hx Hin Hc), Hg.
        split; now apply (same_entity_other et et' eid eid'). }
      destruct (N.eqb (locked_by ex) u).
      * simpl. unfold update_extend. now apply Hrow.
      * destruct (expires_at ex <? now); [|reflexivity].
        destruct (select_full_name u (profiles d)) as [name|].
        -- simpl. unfold update_takeover. now apply Hrow.
        -- destruct (existsb _ (record_locks d)); reflexivity.
    + destruct (select_full_name u (profiles d)) as [name|]; [|reflexivity].
      unfold insert_lock.
      destruct (existsb (same_entity et eid) (record_locks d)); [reflexivity|].
      simpl. rewrite filter_app. simpl.
      assert (E : same_entity et' eid'
                    (mkLock (uuid_generate (record_locks d)) et eid u name (Some now)
                            (now + minutes dur)) = false).
      { apply (same_entity_other et et' eid eid'); [assumption|].
        unfold same_entity. simpl. now rewrite String.eqb_refl, N.eqb_refl. }
      rewrite E. apply app_nil_r.
  - unfold release_lock. destruct auth as [u|]; [|reflexivity].
    unfold rows_for. simpl. clear Hu Hp.
    induction (record_locks d) as [|a rows IH]; simpl; [reflexivity|].
    destruct (owned_by et eid u a) eqn:Hown; simpl.
    + unfold owned_by in Hown. apply andb_true_iff in Hown. destruct Hown as [Hk _].
      rewrite (same_entity_other et et' eid eid' a Hne Hk). apply IH.
    + destruct (same_entity et' eid' a); [f_equal|]; apply IH.
Qed.

(** For a caller with a profile, acquire_lock fails exactly when the
    identity has a row of another holder with expires_at >= now. *)
Lemma acquire_succeeds_iff (u : uuid) (name : text) (now : timestamptz)
  (et : text) (eid : uuid) (dur : Z) (d : db) :
  well_formed d ->
  select_full_name u (profiles d) = Some name ->
  (succeeded (fst (acquire_lock (Some u) now et eid dur d)) = true <->
   forall r, In r (record_locks d) -> same_entity et eid r = true ->
             locked_by r = u \/ expires_at r < now).
Proof.
  intros [Hu _] Hname.
  unfold acquire_lock, acquire_select, acquire_branch. simpl. rewrite Hname.
  destruct (select_lock et eid (record_locks d)) as [ex|] eqn:Hsel.
  - apply select_lock_some in Hsel. destruct Hsel as [Hin Hk].
    destruct (N.eqb_spec (locked_by ex) u) as [Hown|Hown]; simpl.
    + split; [|reflexivity]. intros _ r Hr Hkr.
      rewrite (unique_entity_injective et eid _ r ex Hu Hr Hin Hkr Hk). now left.
    + destruct (Z.ltb_spec (expires_at ex) now) as [Hexp|Hexp]; simpl.
      * split; [|reflexivity]. intros _ r Hr Hkr.
        rewrite (unique_entity_injective et eid _ r ex Hu Hr Hin Hkr Hk). now right.
      * split; [discriminate|]. intros H.
        destruct (H ex Hin Hk); [contradiction|lia].
  - pose proof (select_lock_none_inv et eid _ Hsel) as Hfree.
    destruct (select_lock_none et eid _ Hfree) as [_ Hex].
    unfold insert_lock. rewrite Hex. simpl.
    split; [|reflexivity]. intros _ r Hr Hkr. rewrite (Hfree r Hr) in Hkr. discriminate.
Qed.

Lemma acquire_result_holder (u : uuid) (now : timestamptz)
  (et : text) (eid : uuid) (dur : Z) (d : db) :
  well_formed d ->
  option_map holder_and_expiry
    (select_lock et eid (record_locks (snd (acquire_lock (Some u) now et eid dur d))))
  = if succeeded (fst (acquire_lock (Some u) now et eid dur d))
    then Some (u, now + minutes dur)
    else option_map holder_and_expiry (select_lock et eid (record_locks d)).
Proof.
  intros Hwf.
  destruct (succeeded (fst (acquire_lock (Some u) now et eid dur d))) eqn:Hok.
  - destruct (acquire_success_row u now et eid dur d Hok)
      as [r' [Hin [Hk [Hby [_ Hexp]]]]].
    pose proof (acquire_lock_well_formed (Some u) now et eid dur d Hwf) as [Hu' _].
    rewrite (select_lock_unique et eid _ r' Hu' Hin Hk). simpl.
    unfold holder_and_expiry. now rewrite Hby, Hexp.
  - now rewrite (acquire_failure_unchanged (Some u) now et eid dur d Hok).
Qed.

(** acquire_lock does not depend on the sweeper having run: for a
    caller with a profile, the call succeeds on the swept store exactly
    when it succeeds on the unswept one, and afterwards the identity's
    row has the same holder and the same expires_at either way. *)
Theorem acquire_independent_of_sweep (u : uuid) (name : text)
  (swept_at now : timestamptz) (et : text) (eid : uuid) (dur : Z) (d : db) :
  well_formed d ->
  select_full_name u (profiles d) = Some name ->
  swept_at <= now ->
  let direct := acquire_lock (Some u) now et eid dur d in
  let swept := acquire_lock (Some u) now et eid dur
                 (snd (cleanup_expired_locks swept_at d)) in
  succeeded (fst swept) = succeeded (fst direct)
  /\ option_map holder_and_expiry (select_lock et eid (record_locks (snd swept)))
     = option_map holder_and_expiry (select_lock et eid (record_locks (snd direct))).
Proof.
  intros Hwf Hname Hle direct swept. subst direct swept.
  set (d0 := snd (cleanup_expired_locks swept_at d)).
  assert (Hwf0 : well_formed d0) by exact (perform_well_formed (Cleanup swept_at) d Hwf).
  assert (Hname0 : select_full_name u (profiles d0) = Some name) by exact Hname.
  assert (Hin0 : forall r, In r (record_locks d0) <->
                           In r (record_locks d) /\ swept_at <= expires_at r).
  { intros r. apply cleanup_expired_in. }
  assert (Hsame : succeeded (fst (acquire_lock (Some u) now et eid dur d0))
                  = succeeded (fst (acquire_lock (Some u) now et eid dur d))).
  { pose proof (acquire_succeeds_iff u name now et eid dur d Hwf Hname) as H.
    pose proof (acquire_succeeds_iff u name now et eid dur d0 Hwf0 Hname0) as H0.
    destruct (succeeded (fst (acquire_lock (Some u) now et eid dur d))) eqn:E.
    - apply H0. intros r Hr Hk. apply Hin0 in Hr. apply (proj1 H eq_refl r); tauto.
    - destruct (succeeded (fst (acquire_lock (Some u) now et eid dur d0))) eqn:E0;
        [|reflexivity].
      assert (Hall : forall r, In r (record_locks d) -> same_entity et eid r = true ->
                               locked_by r = u \/ expires_at r < now).
      { intros r Hr Hk.
        destruct (Z.ltb_spec (expires_at r) now) as [Hlt|Hge]; [now right|].
        apply (proj1 H0 eq_refl r); [|assumption]. apply Hin0. split; [assumption|lia]. }
      apply H in Hall. discriminate. }
  split; [exact Hsame|].
  rewrite (acquire_result_holder u now et eid dur d0 Hwf0).
  rewrite (acquire_result_holder u now et eid dur d Hwf).
  rewrite Hsame.
  destruct (succeeded (fst (acquire_lock (Some u) now et eid dur d))) eqn:E;
    [reflexivity|].
  (* the call failed: a live row of another holder exists and the sweep kept it *)
  destruct (select_lock et eid (record_locks d)) as [r|] eqn:Hsel.
  - apply select_lock_some in Hsel. destruct Hsel as [Hr Hk].
    assert (Hlive : now <= expires_at r).
    { destruct (Z.ltb_spec (expires_at r) now) as [Hlt|Hge]; [|assumption].
      assert (Hall : forall x, In x (record_locks d) -> same_entity et eid x = true ->
                               locked_by x = u \/ expires_at x < now).
      { intros x Hx Hkx. destruct Hwf as [Hu _].
        rewrite (unique_entity_injective et eid _ x r Hu Hx Hr Hkx Hk). now right. }
      apply (acquire_succeeds_iff u name now et eid dur d Hwf Hname) in Hall.
      rewrite E in Hall. discriminate. }
    destruct Hwf0 as [Hu0 _].
    rewrite (select_lock_unique et eid (record_locks d0) r Hu0); try assumption.
    + reflexivity.
    + apply Hin0. split; [assumption|lia].
  - pose proof (select_lock_none_inv et eid _ Hsel) as Hfree.
    rewrite (proj1 (select_lock_none et eid (record_locks d0)
                      (fun r Hr => Hfree r (proj1 (proj1 (Hin0 r) Hr))))).
    reflexivity.
Qed.

(** * Further properties of the presence store *)

Section PresenceFacts.

Import Presence PresenceStore.

Lemma upsert_user_ids (row : user_presence) (rows : list user_presence) :
  existsb (fun r => N.eqb (user_id r) (user_id row)) rows = true ->
  map user_id (map (fun r => if N.eqb (user_id r) (user_id row) then row else r) rows)
  = map user_id rows.
Proof.
  intros _. rewrite map_map. apply map_ext. intros r.
  destruct (N.eqb_spec (user_id r) (user_id row)) as [E|E]; congruence.
Qed.

Lemma upsert_one_row_per_user (row : user_presence) (rows : list user_presence) :
  one_row_per_user rows -> one_row_per_user (upsert row rows).
Proof.
  unfold one_row_per_user, upsert. intros Hnd.
  destruct (existsb (fun r => N.eqb (user_id r) (user_id row)) rows) eqn:Hex.
  - now rewrite upsert_user_ids.
  - rewrite map_app. simpl. apply NoDup_snoc; [assumption|].
    intros Hin. apply in_map_iff in Hin. destruct Hin as [r [Hid Hr]].
    assert (existsb (fun r => N.eqb (user_id r) (user_id row)) rows = true).
    { apply existsb_exists. exists r. split; [assumption|]. now apply N.eqb_eq. }
    congruence.
Qed.

Lemma upsert_in (row : user_presence) (rows : list user_presence) (x : user_presence) :
  In x (upsert row rows) <->
  x = row \/ (In x rows /\ user_id x <> user_id row).
Proof.
  unfold upsert.
  destruct (existsb (fun r => N.eqb (user_id r) (user_id row)) rows) eqn:Hex.
  - rewrite in_map_iff. split.
    + intros [y [Hy Hin]].
      destruct (N.eqb_spec (user_id y) (user_id row)) as [E|E].
      * left. now symmetry.
      * right. subst x. now split.
    + intros [->|[Hin Hne]].
      * apply existsb_exists in Hex. destruct Hex as [y [Hy E]].
        exists y. rewrite E. now split.
      * exists x. apply N.eqb_neq in Hne. rewrite Hne. now split.
  - rewrite in_app_iff. simpl. split.
    + intros [Hin|[<-|[]]]; [|now left].
      right. split; [assumption|]. intros E.
      assert (existsb (fun r => N.eqb (user_id r) (user_id row)) rows = true).
      { apply existsb_exists. exists x. split; [assumption|]. now apply N.eqb_eq. }
      congruence.
    + intros [->|[Hin _]]; [right; now left|now left].
Qed.

(** update_presence keeps one row per user: for a signed-in caller
    with a profile it returns true, the caller's row afterwards is the
    one just written (page, entity, status, last_seen = now), every
    other user's row is untouched, and the table grows by one row only
    when the caller had none.  Without a session it returns false and
    writes nothing. *)
Theorem update_presence_upserts (u : uuid) (name : text) (ps : list LockStore.profile)
  (now : timestamptz) (page et : option text) (eid : option uuid)
  (st : option text) (rows : list user_presence) :
  one_row_per_user rows ->
  LockStore.select_full_name u ps = Some name ->
  let written := mkPresence u name page et eid st (Some now) in
  let rows' := snd (update_presence (Some u) ps now page et eid st rows) in
  fst (update_presence (Some u) ps now page et eid st rows) = Returned true
  /\ one_row_per_user rows'
  /\ (forall x, In x rows' <-> x = written \/ (In x rows /\ user_id x <> u))
  /\ (forall x, In x rows' -> user_id x = u -> x = written)
  /\ update_presence None ps now page et eid st rows = (Returned false, rows).
Proof.
  intros Hone Hname written rows'. subst rows'.
  unfold update_presence. rewrite Hname. simpl. fold written.
  split; [reflexivity|]. split; [now apply upsert_one_row_per_user|].
  split; [intros x; apply (upsert_in written rows x)|].
  split; [|reflexivity].
  intros x Hx Hid. apply upsert_in in Hx. destruct Hx as [->|[_ Hne]]; [reflexivity|].
  simpl in Hne. contradiction.
Qed.

Lemma get_viewers_in (rows : list user_presence) (u : uuid) (now : timestamptz)
  (et : text) (eid : uuid) (w : viewer) :
  In w (get_viewers (Some u) now et eid rows) <->
  exists up, In up rows
             /\ entity_type up = Some et
             /\ entity_id up = Some eid
             /\ (exists t, last_seen up = Some t /\ now - minutes 2 < t)
             /\ user_id up <> u
             /\ w = viewer_of up.
Proof.
  unfold get_viewers. rewrite in_map_iff. split.
  - intros [up [Hv Hin]]. apply filter_In in Hin. destruct Hin as [Hin Hc].
    apply viewing_true in Hc. exists up. intuition.
  - intros [up [Hin [H1 [H2 [H3 [H4 Hv]]]]]]. exists up. split; [now symmetry|].
    apply filter_In. split; [assumption|]. apply viewing_true. tauto.
Qed.


End PresenceFacts.

Section PresenceSweep.

Import Presence PresenceStore.

Lemma sql_and_true (a b : option bool) :
  is_true (sql_and a b) = true <-> a = Some true /\ b = Some true.
Proof.
  destruct a as [[|]|], b as [[|]|]; simpl; split;
    try discriminate; try tauto; intros [H1 H2]; discriminate.
Qed.

Lemma filter_filter_implied {A : Type} (p q : A -> bool) (l : list A) :
  (forall x, In x l -> p x = true -> q x = true) ->
  filter p (filter q l) = filter p l.
Proof.
  induction l as [|a l IH]; simpl; intros H; [reflexivity|].
  assert (IH' : filter p (filter q l) = filter p l).
  { apply IH. intros x Hx. apply H. now right. }
  destruct (q a) eqn:Hq; simpl.
  - now rewrite IH'.
  - destruct (p a) eqn:Hp; [|assumption].
    rewrite (H a (or_introl eq_refl) Hp) in Hq. discriminate.
Qed.

(** Once a user reports another entity (or a list page), that user is
    gone from the viewers of the entity left behind: there is one
    presence row per user and the new report overwrote it. *)
Theorem update_presence_moves_viewer (u v : uuid) (name : text)
  (ps : list LockStore.profile) (now later : timestamptz) (page : option text)
  (et : text) (eid : uuid) (et' : option text) (eid' : option uuid)
  (st : option text) (rows : list user_presence) :
  one_row_per_user rows ->
  LockStore.select_full_name u ps = Some name ->
  (et', eid') <> (Some et, Some eid) ->
  let rows' := snd (update_presence (Some u) ps now page et' eid' st rows) in
  forall w, In w (get_viewers (Some v) later et eid rows') -> v_user_id w <> u.
Proof.
  intros Hone Hname Hne rows' w Hw. subst rows'.
  apply get_viewers_in in Hw.
  destruct Hw as [up [Hin [Het [Heid [_ [_ ->]]]]]]. simpl. intros Hid.
  unfold update_presence in Hin. rewrite Hname in Hin. simpl in Hin.
  apply upsert_in in Hin. destruct Hin as [->|[_ Hother]].
  - simpl in Het, Heid. apply Hne. congruence.
  - simpl in Hother. contradiction.
Qed.

(** The presence sweep never changes an answer of get_viewers, at the
    instant of the sweep or later: it deletes only rows older than 5
    minutes, get_viewers lists only rows younger than 2.  It returns
    the number of rows it deleted and keeps rows without a last_seen. *)
Theorem cleanup_stale_presence_keeps_viewers (auth : option uuid)
  (now later : timestamptz) (et : text) (eid : uuid) (rows : list user_presence) :
  now <= later ->
  let rows' := snd (cleanup_stale_presence now rows) in
  get_viewers auth later et eid rows' = get_viewers auth later et eid rows
  /\ fst (cleanup_stale_presence now rows)
     = Z.of_nat (List.length rows) - Z.of_nat (List.length rows')
  /\ (forall up, In up rows -> last_seen up = None -> In up rows').
Proof.
  intros Hle rows'. subst rows'. simpl. split; [|split].
  - unfold get_viewers. f_equal. apply filter_filter_implied.
    intros up _ Hv. unfold viewing in Hv.
    apply sql_and_true in Hv. destruct Hv as [Hv _].
    assert (Hv' : is_true (sql_and
                    (sql_and (sql_eq String.eqb (entity_type up) (Some et))
                             (sql_eq N.eqb (entity_id up) (Some eid)))
                    (sql_gt (last_seen up) (Some (later - minutes 2)))) = true)
      by now rewrite Hv.
    apply sql_and_true in Hv'. destruct Hv' as [_ Hgt].
    unfold stale, sql_lt, sql_gt in *.
    destruct (last_seen up) as [t|]; [|discriminate].
    assert (Hlt : (later - minutes 2 <? t) = true) by congruence.
    apply Z.ltb_lt in Hlt. clear Hv Hgt. simpl.
    destruct (Z.ltb_spec t (now - minutes 5)) as [H|H]; [|reflexivity].
    unfold minutes in *. lia.
  - pose proof (filter_partition_length (stale now) rows). lia.
  - intros up Hin Hnull. apply filter_In. split; [assumption|].
    unfold stale, sql_lt, sql_gt. now rewrite Hnull.
Qed.

End PresenceSweep.

(** * Further properties of the presence service *)

(** extendLock is true exactly when the RPC answered extended or
    created.  A take-over answers success, yet extendLock's value is
    then undefined, as falsy as a denial. *)
Theorem extendLock_true_iff (resp : Client.rpc_response) :
  (Service.truthy (Service.extendLock resp) = true <->
   exists i e, resp = Client.RpcData (Extended i e)
               \/ resp = Client.RpcData (Created i e))
  /\ (forall i e, Service.extendLock (Client.RpcData (TookOver i e)) = None
                  /\ Client.r_success (Client.acquireLock (Client.RpcData (TookOver i e)))
                     = true).
Proof.
  split.
  - destruct resp as [[|i e|i e|b n a e|i e]|m]; simpl; split;
      try discriminate;
      try (intros [i' [e' [H|H]]]; discriminate);
      try reflexivity.
    + intros _. exists i, e. now left.
    + intros _. exists i, e. now right.
  - intros i e. split; reflexivity.
Qed.

(** extendLock against the store: called by the holder of the row it
    is true, expired or not; called by another principal who has a
    profiles row, on an expired row, it takes the lock over (the row is
    the caller's afterwards) and still evaluates to undefined; called
    by another principal without a profiles row, on an expired row,
    acquire_lock raises, extendLock on the error response is false and
    the store is as it was. *)
Theorem extendLock_on_existing_row (d : db) (u : uuid) (now : timestamptz)
  (et : text) (eid : uuid) (dur : Z) (r : record_lock) :
  well_formed d ->
  In r (record_locks d) ->
  same_entity et eid r = true ->
  let o := acquire_lock (Some u) now et eid dur d in
  (locked_by r = u ->
   exists j, fst o = Returned j
             /\ Service.extendLock (Client.RpcData j) = Some true)
  /\ (forall name,
        locked_by r <> u -> expires_at r < now ->
        select_full_name u (profiles d) = Some name ->
        exists j, fst o = Returned j
                  /\ Service.extendLock (Client.RpcData j) = None
                  /\ option_map locked_by (select_lock et eid (record_locks (snd o)))
                     = Some u)
  /\ (locked_by r <> u -> expires_at r < now ->
      select_full_name u (profiles d) = None ->
      o = (Raised not_null_violation, d)
      /\ (forall message,
            Service.extendLock (Client.RpcError message) = Some false)
      /\ option_map locked_by (select_lock et eid (record_locks (snd o)))
         = Some (locked_by r)).
Proof.
  intros Hwf Hin Hk o. subst o.
  assert (Hsel : select_lock et eid (record_locks d) = Some r).
  { destruct Hwf as [Hu _]. now apply select_lock_unique. }
  split; [|split].
  - intros Hown. apply N.eqb_eq in Hown.
    unfold acquire_lock, acquire_select, acquire_branch. simpl.
    rewrite Hsel, Hown. simpl. eexists. split; reflexivity.
  - intros name Hother Hexp Hname.
    assert (Hres : fst (acquire_lock (Some u) now et eid dur d)
                   = Returned (TookOver (id r) (now + minutes dur))).
    { unfold acquire_lock, acquire_select, acquire_branch. simpl.
      rewrite Hsel, Hname. apply N.eqb_neq in Hother. rewrite Hother.
      apply Z.ltb_lt in Hexp. now rewrite Hexp. }
    exists (TookOver (id r) (now + minutes dur)).
    split; [assumption|]. split; [reflexivity|].
    assert (Hh : option_map holder_and_expiry
                   (select_lock et eid
                      (record_locks (snd (acquire_lock (Some u) now et eid dur d))))
                 = Some (u, now + minutes dur)).
    { rewrite (acquire_result_holder u now et eid dur d Hwf), Hres. reflexivity. }
    destruct (select_lock et eid
                (record_locks (snd (acquire_lock (Some u) now et eid dur d))))
      as [r'|]; [|discriminate Hh].
    unfold holder_and_expiry in Hh. simpl in *. congruence.
  - intros Hother Hexp Hname.
    assert (Hres : acquire_lock (Some u) now et eid dur d
                   = (Raised not_null_violation, d)).
    { unfold acquire_lock, acquire_select, acquire_branch. simpl.
      rewrite Hsel, Hname. apply N.eqb_neq in Hother. rewrite Hother.
      apply Z.ltb_lt in Hexp. rewrite Hexp.
      assert (Hex : existsb (fun x => N.eqb (id x) (id r)) (record_locks d) = true).
      { apply existsb_exists. exists r. split; [assumption|apply N.eqb_refl]. }
      now rewrite Hex. }
    rewrite Hres. split; [reflexivity|]. split; [reflexivity|].
    cbn [snd]. now rewrite Hsel.
Qed.

Section CheckVersionFacts.

Import VersionGuard.

Variable payload : Type.

Lemma rows_with_id (entityId : uuid) (rows : list (entity payload)) :
  NoDup (map id rows) ->
  (filter (fun r => N.eqb (id r) entityId) rows = []
   /\ forall x, In x rows -> N.eqb (id x) entityId = false)
  \/ exists r, filter (fun r => N.eqb (id r) entityId) rows = [r]
               /\ In r rows /\ id r = entityId.
Proof.
  intros Hnd.
  pose proof (filter_unique_length id (fun r => N.eqb (id r) entityId) entityId rows Hnd
                (fun x Hx => proj1 (N.eqb_eq _ _) Hx)) as Hlen.
  destruct (filter (fun r => N.eqb (id r) entityId) rows) as [|r [|r2 t]] eqn:Hf.
  - left. split; [reflexivity|]. intros x Hx.
    destruct (N.eqb (id x) entityId) eqn:E; [|reflexivity].
    assert (Hin : In x (filter (fun r => N.eqb (id r) entityId) rows))
      by (apply filter_In; now split).
    rewrite Hf in Hin. contradiction.
  - right. exists r. split; [reflexivity|].
    assert (Hin : In r (filter (fun r => N.eqb (id r) entityId) rows))
      by (rewrite Hf; now left).
    apply filter_In in Hin. destruct Hin as [Hin E]. apply N.eqb_eq in E. now split.
  - simpl in Hlen. lia.
Qed.


End CheckVersionFacts.

(** * Further properties of the locking hooks *)

Section HookFacts.

Import Client Service Hooks.

Variable T : Type.
Variable eid : uuid.

(** startEdit enters edit mode exactly when the lock call succeeded.
    On success the edit data is the initial data and the lock is shown
    as mine; on any failure, whether a denial, a missing session or a
    failed RPC, edit state is untouched, the record is shown as locked
    by someone else and a non-empty error is set.  Without initial
    data or without an entity id nothing happens at all. *)
Theorem startEdit_enters_iff_lock_granted (d0 : T) (resp : rpc_response)
  (s : session T) :
  let ok := fst (startEdit (Some eid) (Some d0) resp s) in
  let s' := snd (startEdit (Some eid) (Some d0) resp s) in
  ok = r_success (acquireLock resp)
  /\ (ok = true ->
      isEditing (hook s') = true /\ editData (hook s') = Some d0
      /\ isLockedByMe (hook s') = true /\ error s' = None)
  /\ (ok = false ->
      isEditing (hook s') = isEditing (hook s)
      /\ editData (hook s') = editData (hook s)
      /\ isLockedByOther s' = true
      /\ exists m, error s' = Some m /\ m <> ""%string)
  /\ effects s' = effects s
  /\ startEdit (Some eid) None resp s = (false, s)
  /\ startEdit None (Some d0) resp s = (false, s).
Proof.
  unfold startEdit, acquire. cbv zeta.
  destruct (r_success (acquireLock resp)) eqn:Hok; simpl; rewrite ?Hok; simpl.
  - split; [reflexivity|]. split; [intros _; repeat split|].
    split; [discriminate|]. repeat split.
  - split; [reflexivity|]. split; [discriminate|].
    split; [|repeat split].
    intros _. split; [reflexivity|]. split; [reflexivity|]. split; [reflexivity|].
    exists (error_or_default (r_error (acquireLock resp))). split; [reflexivity|].
    unfold error_or_default.
    destruct (r_error (acquireLock resp)) as [m|]; [|discriminate].
    destruct (String.eqb_spec m ""%string); [discriminate|assumption].
Qed.

Lemma saveEdit_refused (saved : bool) (resp : rpc bool) (s : session T) :
  isLockedByMe (hook s) = false \/ editData (hook s) = None ->
  saveEdit (Some eid) saved resp s = (false, s).
Proof.
  intros [H|H]; unfold saveEdit.
  - destruct (editData (hook s)); [|reflexivity]. now rewrite H.
  - now rewrite H.
Qed.

Lemma saveEdit_resolved (d0 : T) (resp : rpc bool) (s : session T) :
  editData (hook s) = Some d0 ->
  isLockedByMe (hook s) = true ->
  let saved := saveEdit (Some eid) true resp s in
  fst saved = true
  /\ isEditing (hook (snd saved)) = false
  /\ editData (hook (snd saved)) = None
  /\ effects (snd saved) = effects s ++ [OnSave d0; ReleaseLockRpc]
  /\ isLockedByMe (hook (snd saved)) = negb (releaseLock resp)
  /\ isSaving (snd saved) = false.
Proof.
  intros Hd Hmine. unfold saveEdit. rewrite Hd, Hmine. simpl.
  unfold release. simpl.
  destruct (releaseLock resp) eqn:Hrel; simpl.
  - repeat split; try reflexivity. now rewrite <- app_assoc.
  - repeat split; try reflexivity.
    + now rewrite <- app_assoc.
    + unfold isLockedByMe in *. simpl. exact Hmine.
Qed.

(** saveEdit.  Without the lock or without edit data it does nothing:
    it returns false and calls neither onSave nor release.  Otherwise,
    when onSave rejects (a version conflict, say) it returns false, the
    session stays in edit mode with its data and its lock, and no
    release is sent; when onSave resolves it leaves edit mode, clears
    the data and sends the release, and the lock is shown as mine
    afterwards exactly when that release did not report true.  isSaving
    is false again in every case where it was set. *)
Theorem saveEdit_outcomes (resp : rpc bool) (s : session T) :
  (isLockedByMe (hook s) = false \/ editData (hook s) = None ->
   forall saved, saveEdit (Some eid) saved resp s = (false, s))
  /\ (forall d0,
        editData (hook s) = Some d0 ->
        isLockedByMe (hook s) = true ->
        (let failed := saveEdit (Some eid) false resp s in
         fst failed = false
         /\ hook (snd failed) = hook s
         /\ effects (snd failed) = effects s ++ [OnSave d0]
         /\ isSaving (snd failed) = false)
        /\ (let saved := saveEdit (Some eid) true resp s in
            fst saved = true
            /\ isEditing (hook (snd saved)) = false
            /\ editData (hook (snd saved)) = None
            /\ effects (snd saved) = effects s ++ [OnSave d0; ReleaseLockRpc]
            /\ isLockedByMe (hook (snd saved)) = negb (releaseLock resp)
            /\ isSaving (snd saved) = false)).
Proof.
  split.
  - intros H saved. now apply saveEdit_refused.
  - intros d0 Hd Hmine. split.
    + unfold saveEdit. rewrite Hd, Hmine. simpl. repeat split; reflexivity.
    + now apply saveEdit_resolved.
Qed.

(** When the release after a successful save fails, the hook still
    believes it holds the lock: edit mode is over, yet every later
    extension tick that the server grants leaves that belief in place,
    so the lock keeps being renewed until the unmount cleanup sends a
    release. *)
Theorem failed_release_keeps_renewing (d0 : T) (resp : rpc bool)
  (grants : list rpc_response) (s : session T) :
  editData (hook s) = Some d0 ->
  isLockedByMe (hook s) = true ->
  releaseLock resp = false ->
  Forall (fun g => r_success (acquireLock g) = true) grants ->
  let after := extend_each grants (snd (saveEdit (Some eid) true resp s)) in
  isEditing (hook after) = false
  /\ isLockedByMe (hook after) = true
  /\ effects (unmount (Some eid) after) = effects after ++ [ReleaseLockRpc].
Proof.
  intros Hd Hmine Hrel Hgrants after.
  destruct (saveEdit_resolved d0 resp s Hd Hmine) as [_ [Hed [_ [_ [Hm _]]]]].
  rewrite Hrel in Hm. simpl in Hm.
  assert (Hinv : forall s1 : session T,
             isLockedByMe (hook s1) = true ->
             extend_each grants s1 = s1).
  { clear after Hed Hm. induction Hgrants as [|g gs Hg _ IH]; intros s1 H1; simpl;
      [reflexivity|].
    assert (E : extend g s1 = s1).
    { unfold extend, extend_tick. rewrite H1, Hg. simpl. now destruct s1. }
    rewrite E. now apply IH. }
  subst after. rewrite (Hinv _ Hm).
  split; [assumption|]. split; [assumption|].
  unfold unmount. now rewrite Hm.
Qed.

(** A refresh that fails, or that finds the lock gone (expired, swept
    or released), makes the hook forget a lock it held without any
    lock-lost notice: the session stays in edit mode with its data, no
    alert is shown, but from then on saveEdit returns false without
    calling onSave, so the edits cannot be saved. *)
Theorem refresh_without_lock_blocks_save (resp : rpc check_json) (s : session T) :
  isLockedByMe (hook s) = true ->
  (exists m, resp = RpcFail m) \/ resp = RpcOk NotLocked ->
  let s' := refresh (Some eid) resp s in
  isEditing (hook s') = isEditing (hook s)
  /\ editData (hook s') = editData (hook s)
  /\ alerts (hook s') = alerts (hook s)
  /\ isLocked s' = false
  /\ forall saved answer, saveEdit (Some eid) saved answer s' = (false, s').
Proof.
  intros Hmine Hresp s'.
  assert (Hs' : s' = with_hook (setLockInfo (mkLockInfo false None None None None None)
                                            (hook s)) s).
  { subst s'. unfold refresh. rewrite Hmine.
    destruct Hresp as [[m ->]| ->]; reflexivity. }
  rewrite Hs'. simpl. repeat split.
  intros saved answer. apply saveEdit_refused. left. reflexivity.
Qed.

End HookFacts.

Lemma find_append {A : Type} (p : A -> bool) (l l' : list A) :
  find p (l ++ l') = match find p l with Some x => Some x | None => find p l' end.
Proof.
  induction l as [|a l IH]; simpl; [reflexivity|].
  now destruct (p a).
Qed.

(** * The hooks against the store *)

Section EndToEndFacts.

Import Client Service Hooks.

Variable T : Type.
Variable message_of : sql_error -> string.

Lemma acquire_denied (d : db) (a b : uuid) (now : timestamptz)
  (et : text) (eid : uuid) (dur : Z) (r : record_lock) :
  well_formed d -> In r (record_locks d) -> same_entity et eid r = true ->
  locked_by r = a -> a <> b -> now <= expires_at r ->
  acquire_lock (Some b) now et eid dur d
  = (Returned (Denied a (locked_by_name r) (locked_at r) (expires_at r)), d).
Proof.
  intros [Hu _] Hin Hk Hby Hab Hlive.
  unfold acquire_lock, acquire_select, acquire_branch. simpl.
  rewrite (select_lock_unique et eid (record_locks d) r Hu Hin Hk).
  assert (E1 : N.eqb (locked_by r) b = false) by (apply N.eqb_neq; congruence).
  assert (E2 : (expires_at r <? now) = false) by (apply Z.ltb_ge; lia).
  now rewrite E1, E2, Hby.
Qed.

(** Two editors: while A's lock on the record is unexpired, B's
    startEdit is refused.  B stays out of edit mode, the lock table is
    unchanged, and B's lock info carries A's id, A's display name and
    the lock's timestamps for the warning banner. *)
Theorem second_editor_is_refused (d : db) (a b : uuid) (now : timestamptz)
  (et : text) (eid : uuid) (dur : Z) (r : record_lock) (d0 : T) (s : session T) :
  well_formed d ->
  In r (record_locks d) ->
  same_entity et eid r = true ->
  locked_by r = a ->
  a <> b ->
  now <= expires_at r ->
  let out := EndToEnd.startEdit message_of (Some b) now et eid dur (Some d0) s d in
  let s' := snd (fst out) in
  fst (fst out) = false
  /\ snd out = d
  /\ isEditing (hook s') = isEditing (hook s)
  /\ editData (hook s') = editData (hook s)
  /\ lockInfo (hook s')
     = Some (mkLockInfo true (Some false) (Some a) (Some (locked_by_name r))
                        (locked_at r) (Some (expires_at r)))
  /\ isLockedByOther s' = true
  /\ error s' = Some "Record is being edited"%string.
Proof.
  intros Hwf Hin Hk Hby Hab Hlive out s'. subst s' out.
  unfold EndToEnd.startEdit.
  rewrite (acquire_denied d a b now et eid dur r Hwf Hin Hk Hby Hab Hlive).
  simpl. repeat split.
Qed.

(** Edit and cancel: on a record nobody has locked, startEdit by a
    user with a profile succeeds and writes the lock row; cancelEdit
    then leaves edit mode, drops the edit data and releases, and the
    lock table is exactly what it was before the edit began. *)
Theorem edit_then_cancel_restores_store (d : db) (b : uuid) (name : text)
  (now : timestamptz) (et : text) (eid : uuid) (dur : Z) (d0 : T) (s : session T) :
  (forall r, In r (record_locks d) -> same_entity et eid r = false) ->
  select_full_name b (profiles d) = Some name ->
  let started := EndToEnd.startEdit message_of (Some b) now et eid dur (Some d0) s d in
  let cancelled := EndToEnd.cancelEdit (Some b) et eid (snd (fst started)) (snd started) in
  fst (fst started) = true
  /\ isEditing (hook (snd (fst started))) = true
  /\ option_map locked_by (select_lock et eid (record_locks (snd started))) = Some b
  /\ snd cancelled = d
  /\ isEditing (hook (fst cancelled)) = false
  /\ editData (hook (fst cancelled)) = None
  /\ isLocked (fst cancelled) = false
  /\ effects (fst cancelled) = effects s ++ [ReleaseLockRpc; OnCancel].
Proof.
  intros Hfree Hname started cancelled.
  pose proof (release_after_create b name now et eid dur d Hfree Hname) as Hrel.
  pose proof (select_lock_none et eid (record_locks d) Hfree) as [Hsel Hex].
  assert (Hacq : acquire_lock (Some b) now et eid dur d
                 = (Returned (Created (uuid_generate (record_locks d)) (now + minutes dur)),
                    set_locks d (record_locks d
                                 ++ [mkLock (uuid_generate (record_locks d)) et eid b name
                                            (Some now) (now + minutes dur)]))).
  { unfold acquire_lock, acquire_select, acquire_branch. rewrite Hsel. simpl.
    rewrite Hname. unfold insert_lock. now rewrite Hex. }
  rewrite Hacq in Hrel. cbn [snd] in Hrel.
  subst cancelled started. unfold EndToEnd.startEdit, EndToEnd.cancelEdit.
  rewrite Hacq. cbn [fst snd]. rewrite Hrel. cbn [fst snd].
  split; [reflexivity|]. split; [reflexivity|]. split.
  - simpl. unfold select_lock. rewrite find_append.
    fold (select_lock et eid (record_locks d)). rewrite Hsel. simpl.
    unfold same_entity. simpl. now rewrite String.eqb_refl, N.eqb_refl.
  - simpl. repeat split. now rewrite <- app_assoc.
Qed.

(** Lock lost, end to end: when the record's row belongs to another
    principal and is unexpired (the editor's lock ran out and was taken
    over), the editor's next extension tick is denied by the store and
    the edit session ends: edit mode off, edit data dropped, one alert
    shown, the new holder recorded in the lock info.  The store is not
    changed by the denied call. *)
Theorem replaced_editor_loses_session (d : db) (a b : uuid) (now : timestamptz)
  (et : text) (eid : uuid) (dur : Z) (r : record_lock) (s : session T) :
  well_formed d ->
  In r (record_locks d) ->
  same_entity et eid r = true ->
  locked_by r = b ->
  b <> a ->
  now <= expires_at r ->
  isLockedByMe (hook s) = true ->
  isEditing (hook s) = true ->
  let out := EndToEnd.extend message_of (Some a) now et eid dur s d in
  snd out = d
  /\ isEditing (hook (fst out)) = false
  /\ editData (hook (fst out)) = None
  /\ isLockedByMe (hook (fst out)) = false
  /\ List.length (alerts (hook (fst out))) = S (List.length (alerts (hook s)))
  /\ option_map i_locked_by (lockInfo (hook (fst out))) = Some (Some b).
Proof.
  intros Hwf Hin Hk Hby Hba Hlive Hmine Hed out. subst out.
  unfold EndToEnd.extend. rewrite Hmine.
  rewrite (acquire_denied d b a now et eid dur r Hwf Hin Hk Hby Hba Hlive).
  unfold extend, extend_tick. simpl. rewrite Hmine. simpl.
  unfold onLockLost. simpl. rewrite Hed. simpl.
  repeat split. rewrite length_app. simpl. lia.
Qed.

End EndToEndFacts.

(** * Presence status tracking *)

Section PresenceHookFacts.

Import PresenceHook.

Lemma handle_passive_editing (user : bool) (e : event) (t : tracker) :
  passive e = true -> statusRef t = editing ->
  statusRef (handle user t e) = editing
  /\ (sent (handle user t e) = sent t \/ sent (handle user t e) = sent t ++ [editing]).
Proof.
  intros Hp Hs. destruct e as [| | |s]; simpl in *; try discriminate.
  - unfold resetIdleTimer. rewrite Hs. simpl. split; [assumption|now left].
  - unfold idle_timeout_fires. destruct (idleTimeout t); simpl.
    + rewrite Hs. simpl. split; [reflexivity|now left].
    + split; [assumption|now left].
  - unfold heartbeat, sendPresence. destruct user; simpl.
    + rewrite Hs. split; [reflexivity|now right].
    + split; [assumption|now left].
Qed.

(** While the status is editing, user activity, the idle timeout and
    the heartbeat never change it: the status stays editing through any
    sequence of such events, and every status they report to the server
    is editing.  Only an explicit updateStatus ends it. *)
Theorem editing_status_is_sticky (user : bool) (es : list event) (t : tracker) :
  forallb passive es = true ->
  statusRef t = editing ->
  statusRef (handle_all user es t) = editing
  /\ exists k, sent (handle_all user es t) = sent t ++ repeat editing k.
Proof.
  unfold handle_all.
  revert t. induction es as [|e es IH]; intros t Hp Hs; simpl.
  - split; [assumption|]. exists 0%nat. simpl. now rewrite app_nil_r.
  - simpl in Hp. apply andb_true_iff in Hp. destruct Hp as [He Hes].
    destruct (handle_passive_editing user e t He Hs) as [Hs' Hsent].
    destruct (IH (handle user t e) Hes Hs') as [Hfinal [k Hk]].
    split; [exact Hfinal|].
    destruct Hsent as [E|E]; rewrite E in Hk.
    + now exists k.
    + exists (S k). rewrite Hk, <- app_assoc. reflexivity.
Qed.

(** For a signed-in user the status last handed to updatePresence is
    always the current status: no event changes the status without
    reporting it. *)
Theorem last_report_is_current_status (es : list event) (t : tracker) :
  last (sent t) (statusRef t) = statusRef t ->
  last (sent (handle_all true es t)) (statusRef (handle_all true es t))
  = statusRef (handle_all true es t).
Proof.
  unfold handle_all.
  revert t. induction es as [|e es IH]; intros t Hinv; simpl; [assumption|].
  apply IH.
  destruct e as [| | |s]; simpl.
  - unfold resetIdleTimer.
    destruct (status_eqb (statusRef t) editing); [assumption|].
    destruct (status_eqb (statusRef t) idle); simpl; [|assumption].
    now rewrite last_last.
  - unfold idle_timeout_fires. destruct (idleTimeout t); [|assumption]. simpl.
    destruct (status_eqb (statusRef t) editing); simpl; [assumption|].
    now rewrite last_last.
  - unfold heartbeat, sendPresence. simpl. now rewrite last_last.
  - unfold updateStatus, sendPresence. simpl. now rewrite last_last.
Qed.

Lemma handle_not_idle (user : bool) (e : event) (t : tracker) :
  may_go_idle e = false -> statusRef t <> idle ->
  statusRef (handle user t e) <> idle.
Proof.
  intros He Hs. destruct e as [| | |s]; simpl in *; try discriminate.
  - unfold resetIdleTimer.
    destruct (status_eqb (statusRef t) editing); [assumption|].
    destruct (status_eqb (statusRef t) idle) eqn:E; simpl; [|assumption].
    unfold updateStatus, sendPresence. destruct user; simpl; discriminate.
  - unfold heartbeat, sendPresence. destruct user; simpl; assumption.
  - unfold updateStatus, sendPresence.
    destruct s; try discriminate; destruct user; simpl; discriminate.
Qed.

(** Activity always ends idleness, and the status turns idle only
    through the idle timeout or an explicit updateStatus('idle'):
    starting from a status that is not idle, no sequence of other
    events reaches idle; an idle timeout that is no longer pending does
    nothing. *)
Theorem idle_only_after_timeout (user : bool) (es : list event) (t : tracker) :
  statusRef (resetIdleTimer user t) <> idle
  /\ (forallb (fun e => negb (may_go_idle e)) es = true ->
      statusRef t <> idle ->
      statusRef (handle_all user es t) <> idle)
  /\ (idleTimeout t = false -> handle user t IdleTimeoutFires = t).
Proof.
  split; [|split].
  - unfold resetIdleTimer.
    destruct (statusRef t) eqn:Hs; simpl; try discriminate.
    + rewrite Hs. discriminate.
    + unfold updateStatus, sendPresence. destruct user; simpl; discriminate.
    + rewrite Hs. discriminate.
  - unfold handle_all.
    revert t. induction es as [|e es IH]; intros t Hes Hs; simpl; [assumption|].
    simpl in Hes. apply andb_true_iff in Hes. destruct Hes as [He Hes].
    apply IH; [assumption|].
    apply handle_not_idle; [|assumption]. now apply negb_true_iff.
  - intros H. simpl. unfold idle_timeout_fires. now rewrite H.
Qed.

End PresenceHookFacts.

Section DetailViewFacts.

Import Client Service Hooks PresenceHook.

Variable T : Type.
Variable eid : uuid.

(** A failed save in the detail view: the onSave wrapper reports
    'online' before it saves, so when the save is rejected the user is
    still in edit mode, holding the lock and the unsaved data, while
    the presence status shown to everyone else is online. *)
Theorem failed_save_reports_online_while_editing (d0 : T) (resp : rpc bool)
  (v : DetailView.view T) :
  editData (hook (DetailView.edit v)) = Some d0 ->
  isLockedByMe (hook (DetailView.edit v)) = true ->
  isEditing (hook (DetailView.edit v)) = true ->
  statusRef (DetailView.presence v) = editing ->
  let out := DetailView.saveEdit (Some eid) true false resp v in
  fst out = false
  /\ isEditing (hook (DetailView.edit (snd out))) = true
  /\ editData (hook (DetailView.edit (snd out))) = Some d0
  /\ isLockedByMe (hook (DetailView.edit (snd out))) = true
  /\ statusRef (DetailView.presence (snd out)) = online
  /\ sent (DetailView.presence (snd out)) = sent (DetailView.presence v) ++ [online].
Proof.
  intros Hd Hmine Hed Hst out. subst out.
  unfold DetailView.saveEdit, saveEdit. rewrite Hd, Hmine. simpl.
  repeat split; assumption.
Qed.

End DetailViewFacts.

(** * The realtime list *)

Section RealtimeListFacts.

Import RealtimeList.

Variable T : Type.
Variable item_id : T -> string.
Variable accepts : T -> bool.

(** The list's total count never goes below zero, whatever change
    events arrive and in whatever order. *)
Theorem totalCount_never_negative (cs : list (change T)) (s : list_state T) :
  0 <= totalCount s ->
  0 <= totalCount (on_changes item_id accepts cs s).
Proof.
  unfold on_changes. revert s.
  induction cs as [|c cs IH]; intros s Hs; simpl; [assumption|].
  apply IH. destruct c as [n|u|i]; simpl.
  - destruct (accepts n); simpl; lia.
  - assumption.
  - lia.
Qed.

(** What each change event does to the list.  UPDATE keeps the length
    and the ids in place.  DELETE removes every item with the id and
    keeps the rest in order; for an id that is not in the list the data
    is unchanged, yet a positive total count still drops by one.  INSERT
    puts an accepted record in front without looking at the ids already
    listed, so inserting a listed id leaves two items with that id. *)
Theorem on_change_effects (s : list_state T) :
  (forall u,
      map item_id (data (on_change item_id accepts s (UPDATE u))) = map item_id (data s)
      /\ totalCount (on_change item_id accepts s (UPDATE u)) = totalCount s)
  /\ (forall i x,
        In x (data (on_change item_id accepts s (DELETE i)))
        <-> In x (data s) /\ item_id x <> i)
  /\ (forall i,
        ~ In i (map item_id (data s)) ->
        data (on_change item_id accepts s (DELETE i)) = data s
        /\ (0 < totalCount s ->
            totalCount (on_change item_id accepts s (DELETE i)) = totalCount s - 1))
  /\ (forall n,
        accepts n = true ->
        In (item_id n) (map item_id (data s)) ->
        ~ NoDup (map item_id (data (on_change item_id accepts s (INSERT n))))).
Proof.
  split; [|split; [|split]].
  - intros u. simpl. split; [|reflexivity].
    rewrite map_map. apply map_ext. intros x.
    destruct (String.eqb_spec (item_id x) (item_id u)) as [E|E]; congruence.
  - intros i x. simpl. rewrite filter_In, negb_true_iff.
    destruct (String.eqb_spec (item_id x) i); split; intros [H1 H2]; split;
      try assumption; try reflexivity; try discriminate; contradiction.
  - intros i Hni. simpl. split.
    + apply filter_all_true. intros x Hx. apply negb_true_iff.
      apply String.eqb_neq. intros E. apply Hni. rewrite <- E. now apply in_map.
    + intros Hpos. lia.
  - intros n Hacc Hin Hnd. simpl in Hnd. rewrite Hacc in Hnd. simpl in Hnd.
    inversion Hnd as [|? ? Hnotin _]. contradiction.
Qed.

End RealtimeListFacts.

(** * Small pure helpers *)

(** formatTimeAgo.  A date less than a minute back, or in the future,
    reads "just now"; from one minute up to an hour it reads the whole
    minutes, 1 to 59, followed by " minutes ago" (so "1 minutes ago");
    then whole hours 1 to 23; then whole days, at least 1.  An Invalid
    Date reads "NaN days ago". *)
Theorem formatTimeAgo_ranges (now t : Z) :
  let age := now - t in
  (age < 60000 -> Ui.formatTimeAgo now (Some t) = "just now"%string)
  /\ (60000 <= age < 3600000 ->
      Ui.formatTimeAgo now (Some t)
      = String.append (Ui.decimal (age / 60000)) " minutes ago"
      /\ 1 <= age / 60000 <= 59)
  /\ (3600000 <= age < 86400000 ->
      Ui.formatTimeAgo now (Some t)
      = String.append (Ui.decimal (age / 3600000)) " hours ago"
      /\ 1 <= age / 3600000 <= 23)
  /\ (86400000 <= age ->
      Ui.formatTimeAgo now (Some t)
      = String.append (Ui.decimal (age / 86400000)) " days ago"
      /\ 1 <= age / 86400000)
  /\ Ui.formatTimeAgo now None = "NaN days ago"%string.
Proof.
  intros age. unfold Ui.formatTimeAgo. fold age.
  assert (H60 : age / 1000 / 60 = age / 60000) by (rewrite Z.div_div by lia; reflexivity).
  assert (H3600 : age / 1000 / 3600 = age / 3600000) by (rewrite Z.div_div by lia; reflexivity).
  assert (H86400 : age / 1000 / 86400 = age / 86400000) by (rewrite Z.div_div by lia; reflexivity).
  split; [|split; [|split; [|split]]].
  - intros H.
    assert (E : (age / 1000 <? 60) = true).
    { apply Z.ltb_lt. apply Z.div_lt_upper_bound; lia. }
    now rewrite E.
  - intros [Hlo Hhi].
    assert (E1 : (age / 1000 <? 60) = false).
    { apply Z.ltb_ge. apply Z.div_le_lower_bound; lia. }
    assert (E2 : (age / 1000 <? 3600) = true).
    { apply Z.ltb_lt. apply Z.div_lt_upper_bound; lia. }
    rewrite E1, E2, H60. split; [reflexivity|]. split.
    + apply Z.div_le_lower_bound; lia.
    + assert (age / 60000 < 60) by (apply Z.div_lt_upper_bound; lia). lia.
  - intros [Hlo Hhi].
    assert (E1 : (age / 1000 <? 60) = false).
    { apply Z.ltb_ge. apply Z.div_le_lower_bound; lia. }
    assert (E2 : (age / 1000 <? 3600) = false).
    { apply Z.ltb_ge. apply Z.div_le_lower_bound; lia. }
    assert (E3 : (age / 1000 <? 86400) = true).
    { apply Z.ltb_lt. apply Z.div_lt_upper_bound; lia. }
    rewrite E1, E2, E3, H3600. split; [reflexivity|]. split.
    + apply Z.div_le_lower_bound; lia.
    + assert (age / 3600000 < 24) by (apply Z.div_lt_upper_bound; lia). lia.
  - intros Hlo.
    assert (E1 : (age / 1000 <? 60) = false).
    { apply Z.ltb_ge. apply Z.div_le_lower_bound; lia. }
    assert (E2 : (age / 1000 <? 3600) = false).
    { apply Z.ltb_ge. apply Z.div_le_lower_bound; lia. }
    assert (E3 : (age / 1000 <? 86400) = false).
    { apply Z.ltb_ge. apply Z.div_le_lower_bound; lia. }
    rewrite E1, E2, E3, H86400. split; [reflexivity|].
    apply Z.div_le_lower_bound; lia.
  - reflexivity.
Qed.

(** retryDelay doubles from one second and is capped at thirty: it is
    1000 * 2^i up to the fifth attempt, 30000 from attempt index 5 on,
    always between 1000 and 30000, and never decreases. *)
Theorem retryDelay_bounds (i j : N) :
  1000 <= Ui.retryDelay i <= 30000
  /\ ((i <= 4)%N -> Ui.retryDelay i = 1000 * 2 ^ Z.of_N i)
  /\ ((5 <= i)%N -> Ui.retryDelay i = 30000)
  /\ ((i <= j)%N -> Ui.retryDelay i <= Ui.retryDelay j).
Proof.
  unfold Ui.retryDelay.
  assert (Hpow : forall n : N, 1 <= 2 ^ Z.of_N n).
  { intros n. apply (Z.pow_le_mono_r 2 0 (Z.of_N n)); lia. }
  assert (Hmono : forall a b : N, (a <= b)%N -> 2 ^ Z.of_N a <= 2 ^ Z.of_N b).
  { intros a b Hab. apply Z.pow_le_mono_r; lia. }
  split; [|split; [|split]].
  - pose proof (Hpow i). lia.
  - intros Hi. pose proof (Hmono i 4%N Hi) as H. change (2 ^ Z.of_N 4) with 16 in H. lia.
  - intros Hi. pose proof (Hmono 5%N i Hi) as H. change (2 ^ Z.of_N 5) with 32 in H. lia.
  - intros Hij. pose proof (Hmono i j Hij). lia.
Qed.

(** * The further properties at concrete inputs *)

Local Open Scope string_scope.

Lemma two_locks_well_formed : well_formed Scenario.two_locks.
Proof.
  split; (constructor; [simpl; intros [H|[]]; discriminate H
                       |constructor; [simpl; tauto|constructor]]).
Defined.

Lemma check_lock_ignores_sweep_witness :
  minutes 16 <= minutes 17
  /\ check_lock (Some Sample.bob) (minutes 17) "job" 7%N
       (snd (cleanup_expired_locks (minutes 16) Sample.alice_editing))
     = check_lock (Some Sample.bob) (minutes 17) "job" 7%N Sample.alice_editing.
Proof.
  split; [vm_compute; discriminate|].
  apply (check_lock_ignores_sweep (Some Sample.bob) (minutes 16) (minutes 17)).
  vm_compute. discriminate.
Defined.


Lemma acquire_nonpositive_duration_witness :
  succeeded (fst (acquire_lock (Some Sample.bob) 0 "job" 7%N 0 Sample.no_locks)) = true
  /\ check_lock (Some Sample.bob) 0 "job" 7%N
       (snd (acquire_lock (Some Sample.bob) 0 "job" 7%N 0 Sample.no_locks))
     = NotLocked.
Proof.
  split; [reflexivity|].
  apply (acquire_nonpositive_duration Sample.bob 0 "job" 7%N 0 Sample.no_locks
           no_locks_well_formed).
  - vm_compute. discriminate.
  - reflexivity.
Defined.

Lemma release_then_acquire_creates_witness :
  fst (release_lock (Some Sample.alice) "job" 7%N Sample.alice_editing) = true
  /\ exists new_id,
       fst (acquire_lock (Some Sample.bob) (minutes 1) "job" 7%N 15
              (snd (release_lock (Some Sample.alice) "job" 7%N Sample.alice_editing)))
       = Returned (Created new_id (minutes 1 + minutes 15)).
Proof.
  exact (release_then_acquire_creates Sample.alice Sample.bob "Bob" (minutes 1)
           "job" 7%N 15 Sample.alice_editing Sample.alice_row
           alice_editing_well_formed (or_introl eq_refl) eq_refl eq_refl eq_refl).
Defined.

Lemma acquire_then_release_restores_witness :
  release_lock (Some Sample.bob) "quote" 9%N
    (snd (acquire_lock (Some Sample.bob) 0 "quote" 9%N 15 Sample.alice_editing))
  = (true, Sample.alice_editing).
Proof.
  apply (acquire_then_release_restores Sample.bob "Bob" 0 "quote" 9%N 15
           Sample.alice_editing).
  - intros r [<-|[]]. reflexivity.
  - reflexivity.
Defined.

Lemma other_identities_untouched_witness :
  ("quote", 9%N) <> ("job", 7%N)
  /\ rows_for "quote" 9%N
       (snd (acquire_lock (Some Sample.carol) (minutes 20) "job" 7%N 15
                          Scenario.two_locks))
     = [Scenario.bob_row].
Proof.
  split; [discriminate|].
  destruct (other_identities_untouched (Some Sample.carol) (minutes 20)
              "job" "quote" 7%N 9%N 15 Scenario.two_locks two_locks_well_formed)
    as [H _].
  - discriminate.
  - exact H.
Defined.

Lemma acquire_independent_of_sweep_witness :
  succeeded (fst (acquire_lock (Some Sample.bob) (minutes 20) "job" 7%N 15
                    (snd (cleanup_expired_locks (minutes 18) Sample.alice_editing))))
  = succeeded (fst (acquire_lock (Some Sample.bob) (minutes 20) "job" 7%N 15
                      Sample.alice_editing)).
Proof.
  destruct (acquire_independent_of_sweep Sample.bob "Bob" (minutes 18) (minutes 20)
              "job" 7%N 15 Sample.alice_editing alice_editing_well_formed eq_refl)
    as [H _].
  - vm_compute. discriminate.
  - exact H.
Defined.

Lemma race_run_well_formed_witness :
  well_formed
    (Race.store (Race.run "job" 7%N 15 Sample.both_select_first
                   (Sample.bob_and_carol (minutes 20) Sample.alice_editing))).
Proof.
  apply (race_run_well_formed "job" 7%N 15 Sample.both_select_first).
  exact alice_editing_well_formed.
Defined.

Lemma onlookers_one_row_per_user (now : timestamptz) :
  PresenceStore.one_row_per_user (Sample.onlookers now).
Proof.
  constructor; [simpl; intros [H|[]]; discriminate H|].
  constructor; [simpl; tauto|constructor].
Defined.

Lemma update_presence_upserts_witness :
  fst (PresenceStore.update_presence (Some Sample.bob) Sample.people (minutes 60)
         (Some "/quotes/9") (Some "quote") (Some 9%N) (Some "editing")
         (Sample.onlookers (minutes 60)))
  = Returned true
  /\ PresenceStore.one_row_per_user
       (snd (PresenceStore.update_presence (Some Sample.bob) Sample.people (minutes 60)
               (Some "/quotes/9") (Some "quote") (Some 9%N) (Some "editing")
               (Sample.onlookers (minutes 60)))).
Proof.
  destruct (update_presence_upserts Sample.bob "Bob" Sample.people (minutes 60)
              (Some "/quotes/9") (Some "quote") (Some 9%N) (Some "editing")
              (Sample.onlookers (minutes 60))
              (onlookers_one_row_per_user (minutes 60)) eq_refl)
    as [H1 [H2 _]].
  split; [exact H1|exact H2].
Defined.


Lemma update_presence_moves_viewer_witness :
  Forall (fun w => Presence.v_user_id w <> Sample.bob)
    (Presence.get_viewers (Some Sample.alice) (minutes 60) "job" 7%N
       (snd (PresenceStore.update_presence (Some Sample.bob) Sample.people
               (minutes 60) (Some "/companies") None None (Some "online")
               (Sample.onlookers (minutes 60))))).
Proof.
  apply Forall_forall.
  apply (update_presence_moves_viewer Sample.bob Sample.alice "Bob" Sample.people
           (minutes 60) (minutes 60) (Some "/companies") "job" 7%N None None
           (Some "online") (Sample.onlookers (minutes 60))
           (onlookers_one_row_per_user (minutes 60)) eq_refl).
  discriminate.
Defined.

Lemma cleanup_stale_presence_keeps_viewers_witness :
  Presence.get_viewers (Some Sample.alice) (minutes 70) "job" 7%N
    (snd (PresenceStore.cleanup_stale_presence (minutes 70)
            (Sample.onlookers (minutes 60))))
  = Presence.get_viewers (Some Sample.alice) (minutes 70) "job" 7%N
      (Sample.onlookers (minutes 60))
  /\ fst (PresenceStore.cleanup_stale_presence (minutes 70)
            (Sample.onlookers (minutes 60))) = 2.
Proof.
  destruct (cleanup_stale_presence_keeps_viewers (Some Sample.alice) (minutes 70)
              (minutes 70) "job" 7%N (Sample.onlookers (minutes 60)))
    as [H _].
  - vm_compute. discriminate.
  - split; [exact H|reflexivity].
Defined.

Lemma extendLock_on_existing_row_witness :
  (exists j,
      fst (acquire_lock (Some Sample.alice) (minutes 20) "job" 7%N 15
                        Sample.alice_editing) = Returned j
      /\ Service.extendLock (Client.RpcData j) = Some true)
  /\ (exists j,
        fst (acquire_lock (Some Sample.bob) (minutes 20) "job" 7%N 15
                          Sample.alice_editing) = Returned j
        /\ Service.extendLock (Client.RpcData j) = None
        /\ option_map locked_by
             (select_lock "job" 7%N
                (record_locks
                   (snd (acquire_lock (Some Sample.bob) (minutes 20) "job" 7%N 15
                                      Sample.alice_editing))))
           = Some Sample.bob)
  /\ acquire_lock (Some Sample.stranger) (minutes 20) "job" 7%N 15
                  Sample.alice_editing
     = (Raised not_null_violation, Sample.alice_editing).
Proof.
  split; [|split].
  - destruct (extendLock_on_existing_row Sample.alice_editing Sample.alice (minutes 20)
                "job" 7%N 15 Sample.alice_row alice_editing_well_formed
                (or_introl eq_refl) eq_refl) as [H _].
    exact (H eq_refl).
  - destruct (extendLock_on_existing_row Sample.alice_editing Sample.bob (minutes 20)
                "job" 7%N 15 Sample.alice_row alice_editing_well_formed
                (or_introl eq_refl) eq_refl) as [_ [H _]].
    apply (H "Bob").
    + discriminate.
    + reflexivity.
    + reflexivity.
  - destruct (extendLock_on_existing_row Sample.alice_editing Sample.stranger
                (minutes 20) "job" 7%N 15 Sample.alice_row alice_editing_well_formed
                (or_introl eq_refl) eq_refl) as [_ [_ H]].
    apply H.
    + discriminate.
    + reflexivity.
    + reflexivity.
Defined.


Lemma failed_release_keeps_renewing_witness :
  Client.isLockedByMe
    (Hooks.hook
       (Hooks.extend_each
          [Client.RpcData (Extended 10%N (minutes 30));
           Client.RpcData (Extended 10%N (minutes 31))]
          (snd (Hooks.saveEdit (Some 7%N) true (Service.RpcFail "Failed to fetch")
                               Scenario.editor))))
  = true.
Proof.
  destruct (failed_release_keeps_renewing string 7%N "unsaved draft"
              (Service.RpcFail "Failed to fetch")
              [Client.RpcData (Extended 10%N (minutes 30));
               Client.RpcData (Extended 10%N (minutes 31))]
              Scenario.editor eq_refl eq_refl eq_refl)
    as [_ [H _]].
  - repeat constructor.
  - exact H.
Defined.

Lemma refresh_without_lock_blocks_save_witness :
  Client.isEditing
    (Hooks.hook (Hooks.refresh (Some 7%N) (Service.RpcFail "Failed to fetch")
                               Scenario.editor)) = true
  /\ forall saved answer,
       Hooks.saveEdit (Some 7%N) saved answer
         (Hooks.refresh (Some 7%N) (Service.RpcFail "Failed to fetch") Scenario.editor)
       = (false,
          Hooks.refresh (Some 7%N) (Service.RpcFail "Failed to fetch") Scenario.editor).
Proof.
  destruct (refresh_without_lock_blocks_save string 7%N
              (Service.RpcFail "Failed to fetch") Scenario.editor eq_refl)
    as [H1 [_ [_ [_ H2]]]].
  - left. exists "Failed to fetch". reflexivity.
  - split; [exact H1|exact H2].
Defined.

Lemma second_editor_is_refused_witness :
  fst (fst (EndToEnd.startEdit Scenario.sqlstate (Some Sample.bob) (minutes 5)
              "job" 7%N 15 (Some "draft") Scenario.fresh_session Sample.alice_editing))
  = false
  /\ snd (EndToEnd.startEdit Scenario.sqlstate (Some Sample.bob) (minutes 5)
            "job" 7%N 15 (Some "draft") Scenario.fresh_session Sample.alice_editing)
     = Sample.alice_editing.
Proof.
  destruct (second_editor_is_refused string Scenario.sqlstate Sample.alice_editing
              Sample.alice Sample.bob (minutes 5) "job" 7%N 15 Sample.alice_row "draft"
              Scenario.fresh_session alice_editing_well_formed
              (or_introl eq_refl) eq_refl eq_refl)
    as [H1 [H2 _]].
  - discriminate.
  - vm_compute. discriminate.
  - split; [exact H1|exact H2].
Defined.

Lemma edit_then_cancel_restores_store_witness :
  snd (EndToEnd.cancelEdit (Some Sample.bob) "job" 7%N
         (snd (fst (EndToEnd.startEdit Scenario.sqlstate (Some Sample.bob) 0 "job" 7%N 15
                      (Some "draft") Scenario.fresh_session Sample.no_locks)))
         (snd (EndToEnd.startEdit Scenario.sqlstate (Some Sample.bob) 0 "job" 7%N 15
                 (Some "draft") Scenario.fresh_session Sample.no_locks)))
  = Sample.no_locks.
Proof.
  destruct (edit_then_cancel_restores_store string Scenario.sqlstate Sample.no_locks
              Sample.bob "Bob" 0 "job" 7%N 15 "draft" Scenario.fresh_session)
    as [_ [_ [_ [H _]]]].
  - intros r [].
  - reflexivity.
  - exact H.
Defined.

Lemma replaced_editor_loses_session_witness :
  Client.isEditing
    (Hooks.hook
       (fst (EndToEnd.extend Scenario.sqlstate (Some Sample.bob) (minutes 5)
               "job" 7%N 15 Scenario.editor Sample.alice_editing)))
  = false.
Proof.
  destruct (replaced_editor_loses_session string Scenario.sqlstate Sample.alice_editing
              Sample.bob Sample.alice (minutes 5) "job" 7%N 15 Sample.alice_row
              Scenario.editor alice_editing_well_formed
              (or_introl eq_refl) eq_refl eq_refl)
    as [_ [H _]].
  - discriminate.
  - vm_compute. discriminate.
  - reflexivity.
  - reflexivity.
  - exact H.
Defined.

Lemma editing_status_is_sticky_witness :
  PresenceHook.statusRef
    (PresenceHook.handle_all true
       [PresenceHook.Activity; PresenceHook.IdleTimeoutFires; PresenceHook.Heartbeat;
        PresenceHook.Activity]
       Scenario.editing_tracker)
  = PresenceHook.editing.
Proof.
  destruct (editing_status_is_sticky true
              [PresenceHook.Activity; PresenceHook.IdleTimeoutFires;
               PresenceHook.Heartbeat; PresenceHook.Activity]
              Scenario.editing_tracker eq_refl eq_refl)
    as [H _].
  exact H.
Defined.

Lemma last_report_is_current_status_witness :
  last (PresenceHook.sent
          (PresenceHook.handle_all true
             [PresenceHook.UpdateStatus PresenceHook.online;
              PresenceHook.IdleTimeoutFires; PresenceHook.Activity]
             Scenario.editing_tracker))
       (PresenceHook.statusRef
          (PresenceHook.handle_all true
             [PresenceHook.UpdateStatus PresenceHook.online;
              PresenceHook.IdleTimeoutFires; PresenceHook.Activity]
             Scenario.editing_tracker))
  = PresenceHook.online.
Proof.
  exact (last_report_is_current_status
           [PresenceHook.UpdateStatus PresenceHook.online;
            PresenceHook.IdleTimeoutFires; PresenceHook.Activity]
           Scenario.editing_tracker eq_refl).
Defined.

Lemma failed_save_reports_online_while_editing_witness :
  Client.isEditing
    (Hooks.hook
       (DetailView.edit
          (snd (DetailView.saveEdit (Some 7%N) true false
                  (Service.RpcOk true) Scenario.editing_view)))) = true
  /\ PresenceHook.statusRef
       (DetailView.presence
          (snd (DetailView.saveEdit (Some 7%N) true false
                  (Service.RpcOk true) Scenario.editing_view)))
     = PresenceHook.online.
Proof.
  destruct (failed_save_reports_online_while_editing string 7%N "unsaved draft"
              (Service.RpcOk true) Scenario.editing_view eq_refl eq_refl eq_refl eq_refl)
    as [_ [H1 [_ [_ [H2 _]]]]].
  split; [exact H1|exact H2].
Defined.

Lemma totalCount_never_negative_witness :
  (0 <=? RealtimeList.totalCount
           (RealtimeList.on_changes fst (fun _ => true)
              [RealtimeList.DELETE "c9"; RealtimeList.DELETE "c1";
               RealtimeList.INSERT ("c3", "Gamma")]
              (RealtimeList.mkList [("c1", "Acme")] 1)))%Z
  = true.
Proof.
  apply Z.leb_le.
  apply (totalCount_never_negative (string * string) fst (fun _ => true)).
  vm_compute. discriminate.
Defined.
